(** * Caller memory subsystem of siphon: a shallow embedding in Rocq.

    Sources embedded:
    - [siphon/memory/models.py]            : [Fact], [CallerMemory], [ExtractionResult]
    - [siphon/memory/service.py]           : [MemoryService.load/save/_merge_facts/_filter_expired_facts]
    - [siphon/memory/extraction/base.py]   : [FactExtractor._format_conversation]
    - [siphon/memory/extraction/llm_extractor.py] : [LLMFactExtractor.extract]
    - [siphon/memory/enrichment.py]        : [MemoryEnricher.format]
    - [siphon/memory/storage/local.py]     : [LocalMemoryStore]

    Timestamps ([datetime]) are modelled as integers counting microseconds;
    Python [int] as [Z]; a Python [str] as the [String.string] of its UTF-8
    encoding, one [ascii] per byte (every [str] the code handles has one:
    it holds no lone surrogate).  An ASCII character is one byte; the bytes
    of any other character are all 128 or above. *)

From Stdlib Require Import String Ascii List ZArith Lia Bool Permutation Sorted.
Import ListNotations.
Open Scope string_scope.
Open Scope list_scope.
Open Scope Z_scope.

(* ------------------------------------------------------------------ *)
(** ** Data model ([siphon/memory/models.py]) *)

(** [class Fact(BaseModel)] *)
Record Fact := mkFact {
  key : string;
  value : string;
  importance : Z;
  extracted_at : Z;
  source : option string
}.

(** [class CallerMemory(BaseModel)] *)
Record CallerMemory := mkCallerMemory {
  phone_number : string;
  first_call_date : Z;
  last_call_date : Z;
  call_count : Z;
  facts : list Fact
}.

(** [class ExtractionResult(BaseModel)] *)
Record ExtractionResult := mkExtractionResult {
  er_facts : list Fact;
  raw_response : option string;
  success : bool;
  error_message : option string
}.

(** [ExtractionResult(success=True)]: every other field at its default. *)
Definition empty_success : ExtractionResult :=
  mkExtractionResult [] None true None.

(* ------------------------------------------------------------------ *)
(** ** [MemoryService._merge_facts] *)

(** A Python [dict] keeps insertion order; [fact_map[fact.key] = fact]
    overwrites the value in place when the key is already there and appends
    a new entry otherwise.  The dict [Dict[str, Fact]] is modelled by the
    list of its values in insertion order (each value carries its key). *)
Fixpoint dict_set (m : list Fact) (f : Fact) : list Fact :=
  match m with
  | [] => [f]
  | g :: m' => if String.eqb (key g) (key f) then f :: m' else g :: dict_set m' f
  end.

(** [for fact in l: fact_map[fact.key] = fact] *)
Definition dict_set_all (m : list Fact) (l : list Fact) : list Fact :=
  fold_left dict_set l m.

(** [sorted(xs, key=lambda f: f.importance, reverse=True)]: Python's sort is
    stable, also with [reverse=True] (equal keys keep their original order).
    Insertion sort: the head of the input goes before the first element of
    the sorted tail whose importance is [<=] its own, so facts of equal
    importance keep their input order. *)
Fixpoint insert_desc (f : Fact) (l : list Fact) : list Fact :=
  match l with
  | [] => [f]
  | g :: l' => if importance g <=? importance f then f :: g :: l'
               else g :: insert_desc f l'
  end.

Fixpoint sort_desc (l : list Fact) : list Fact :=
  match l with
  | [] => []
  | f :: l' => insert_desc f (sort_desc l')
  end.

(** [merged[:15]  # Max 15 facts] *)
Definition MAX_MERGED_FACTS : nat := 15.

(** The [fact_map] built by [_merge_facts]: [existing] first, then [new]. *)
Definition fact_map (existing new : list Fact) : list Fact :=
  dict_set_all (dict_set_all [] existing) new.

(** [MemoryService._merge_facts(existing, new)] *)
Definition merge_facts (existing new : list Fact) : list Fact :=
  firstn MAX_MERGED_FACTS (sort_desc (fact_map existing new)).

(** The last fact of [l] whose key is [k] (the one a dict keeps). *)
Fixpoint last_with (k : string) (l : list Fact) : option Fact :=
  match l with
  | [] => None
  | f :: l' => match last_with k l' with
               | Some g => Some g
               | None => if String.eqb (key f) k then Some f else None
               end
  end.

(** Facts sorted by importance, descending (the order [_merge_facts] returns). *)
Definition sorted_desc (l : list Fact) : Prop :=
  Sorted (fun a b => importance b <= importance a) l.


(* ------------------------------------------------------------------ *)
(** ** Exceptions and the error monad *)

(** A Python exception of class [Exception] (or a subclass): class name and
    message.  These are exactly what [except Exception] catches. *)
Inductive PyException := Exception (cls : string) (msg : string).

(** A computation that returns normally or raises. *)
Inductive res (A : Type) : Type :=
| Ok (a : A)
| Err (e : PyException).
Arguments Ok {A} a.
Arguments Err {A} e.

Definition bind {A B : Type} (r : res A) (k : A -> res B) : res B :=
  match r with Ok a => k a | Err e => Err e end.

Notation "x <- r ;; k" := (bind r (fun x => k))
  (at level 61, r at next level, right associativity).

(** [try: body  except Exception as e: return handler(e)] *)
Definition try_except {A : Type} (body : res A) (handler : PyException -> A) : res A :=
  match body with Ok a => Ok a | Err e => Ok (handler e) end.

(* ------------------------------------------------------------------ *)
(** ** Conversation messages *)

(** A message [{"role": ..., "content": ...}]: [role] is [None] when the
    key is missing ([msg.get('role')]); a missing [content] reads as [""]
    ([msg.get('content', '')]). *)
Record Message := mkMessage {
  role : option string;
  content : string
}.

(** The one-byte characters [str.strip()] removes: U+0009..U+000D and
    U+001C..U+0020. *)
Definition is_space (c : ascii) : bool :=
  let n := nat_of_ascii c in
  ((9 <=? n) && (n <=? 13) || (28 <=? n) && (n <=? 32))%nat.

(** The two-byte characters it removes: U+0085 (C2 85) and U+00A0 (C2 A0). *)
Definition is_space2 (a b : ascii) : bool :=
  let x := nat_of_ascii a in
  let y := nat_of_ascii b in
  ((x =? 194) && ((y =? 133) || (y =? 160)))%nat.

(** The three-byte characters it removes: U+1680 (E1 9A 80), U+2000..U+200A
    (E2 80 80..8A), U+2028, U+2029 and U+202F (E2 80 A8, A9, AF), U+205F
    (E2 81 9F) and U+3000 (E3 80 80).  With the two lists above these are
    all the characters Python's [str.isspace()] accepts; none is longer. *)
Definition is_space3 (a b c : ascii) : bool :=
  let x := nat_of_ascii a in
  let y := nat_of_ascii b in
  let z := nat_of_ascii c in
  ((x =? 225) && (y =? 154) && (z =? 128) ||
   (x =? 226) && (y =? 128) &&
     ((128 <=? z) && (z <=? 138) || (z =? 168) || (z =? 169) || (z =? 175)) ||
   (x =? 226) && (y =? 129) && (z =? 159) ||
   (x =? 227) && (y =? 128) && (z =? 128))%nat.

(** The loop of [str.strip()] at one end, over the bytes: while the text
    starts with the encoding of a whitespace character, drop it.  [sp1],
    [sp2] and [sp3] recognise the one-, two- and three-byte encodings as the
    loop meets them. *)
Fixpoint strip_front (sp1 : ascii -> bool) (sp2 : ascii -> ascii -> bool)
    (sp3 : ascii -> ascii -> ascii -> bool) (s : string) : string :=
  match s with
  | EmptyString => EmptyString
  | String a s1 =>
      if sp1 a then strip_front sp1 sp2 sp3 s1 else
      match s1 with
      | EmptyString => s
      | String b s2 =>
          if sp2 a b then strip_front sp1 sp2 sp3 s2 else
          match s2 with
          | EmptyString => s
          | String c s3 => if sp3 a b c then strip_front sp1 sp2 sp3 s3 else s
          end
      end
  end.

(** [str.lstrip()] *)
Definition lstrip (s : string) : string := strip_front is_space is_space2 is_space3 s.

(** [str.lstrip()] on the reversed bytes: the encodings are met last byte
    first. *)
Definition lstrip_rev (s : string) : string :=
  strip_front is_space (fun y x => is_space2 x y) (fun z y x => is_space3 x y z) s.

Fixpoint rev_string (s : string) : string :=
  match s with
  | EmptyString => EmptyString
  | String c s' => rev_string s' ++ String c EmptyString
  end.

(** [str.strip()]: the front, then the back (through the reversed bytes). *)
Definition strip (s : string) : string :=
  rev_string (lstrip_rev (rev_string (lstrip s))).

(** A UTF-8 continuation byte (10xxxxxx): every other byte starts a character. *)
Definition is_cont (c : ascii) : bool :=
  let n := nat_of_ascii c in ((128 <=? n) && (n <=? 191))%nat.

(** [len(s)]: the number of characters, i.e. of bytes that start one. *)
Fixpoint py_len (s : string) : nat :=
  match s with
  | EmptyString => O
  | String c s' => if is_cont c then py_len s' else S (py_len s')
  end.

(** [s[:n]] for [n >= 0]: the bytes of the first [n] characters. *)
Fixpoint py_prefix (n : nat) (s : string) : string :=
  match s with
  | EmptyString => EmptyString
  | String c s' =>
      if is_cont c then String c (py_prefix n s') else
      match n with
      | O => EmptyString
      | S n' => String c (py_prefix n' s')
      end
  end.

(** Truthiness of a Python string. *)
Definition truthy (s : string) : bool :=
  match s with EmptyString => false | _ => true end.

(** A byte that is an ASCII character other than whitespace.  Such a byte
    is never part of the encoding of a whitespace character. *)
Definition is_plain (c : ascii) : bool :=
  ((nat_of_ascii c <? 128)%nat && negb (is_space c)).

(** Whether [s] has such a byte. *)
Fixpoint has_plain (s : string) : bool :=
  match s with
  | EmptyString => false
  | String c s' => is_plain c || has_plain s'
  end.



(* ------------------------------------------------------------------ *)
(** ** The memory service ([siphon/memory/service.py]) *)

(** [timedelta(days=1)] in microseconds. *)
Definition DAY : Z := 86400 * 1000000.

(** Default [ttl_days] of [_filter_expired_facts]. *)
Definition TTL_DAYS : Z := 90.

(** [MemoryService._filter_expired_facts(facts, ttl_days)], with [now] the
    value of [datetime.utcnow()].  A [datetime] is always truthy, so the
    test [fact.extracted_at and ...] reduces to the comparison. *)
Definition filter_expired_facts (now : Z) (fs : list Fact) (ttl_days : Z) : list Fact :=
  if ttl_days <=? 0 then fs
  else let cutoff := now - ttl_days * DAY in
       filter (fun f => cutoff <=? extracted_at f) fs.

(** [phone_number or self._phone_number]: [None] and [""] are falsy. *)
Definition py_or (a b : option string) : option string :=
  match a with
  | Some s => if truthy s then a else b
  | None => b
  end.

(** [CallerMemory(phone_number=phone)]: [created] is the reading of
    [datetime.utcnow()] taken by the default factory of [first_call_date].
    The factory of [last_call_date] takes a reading of its own, which [save]
    never reads; it is given the same value here. *)
Definition new_caller_memory (phone : string) (created : Z) : CallerMemory :=
  mkCallerMemory phone created created 0 [].

(** The record [memory] that [MemoryService.save] builds from what
    [self._store.get(phone)] returned ([found]) and the new facts. *)
Definition built_memory (phone : string) (found : option CallerMemory)
    (new_facts : list Fact) (created now : Z) : CallerMemory :=
  let existing := match found with
                  | Some m => m
                  | None => new_caller_memory phone created
                  end in
  let merged := merge_facts (facts existing) new_facts in
  mkCallerMemory phone (first_call_date existing) now
    (call_count existing + 1) merged.

Section Service.

(** The storage backend ([MemoryStore]): its state and its [get]/[save],
    either of which may raise. *)
Variable St : Type.
Variable store_get : St -> string -> res (option CallerMemory).
Variable store_save : St -> string -> CallerMemory -> res St.

(** The LLM handed to [save] and [LLMFactExtractor(llm=llm).extract(...)],
    which may return any result or raise. *)
Variable LLM : Type.
Variable llm_extract : LLM -> list Message -> res ExtractionResult.

(** The fields of [MemoryService] the operations read and write. *)
Record MemoryService := mkMemoryService {
  svc_enabled : bool;
  svc_phone_number : option string;
  svc_loaded_memory : option CallerMemory;
  svc_store : St
}.

(** [MemoryService._extract_facts(conversation_history, llm)] *)
Definition extract_facts (l : LLM) (history : list Message) : res (list Fact) :=
  try_except
    (result <- llm_extract l history ;;
     Ok (if success result then er_facts result else []))
    (fun _ => []).

(** [if conversation_history and llm: new_facts = await self._extract_facts(...)] *)
Definition new_facts_of (history : list Message) (llm : option LLM) : res (list Fact) :=
  match history, llm with
  | _ :: _, Some l => extract_facts l history
  | _, _ => Ok []
  end.

(** The [try] block of [MemoryService.save]; [created] is the clock reading
    taken when no record is stored and [CallerMemory(phone_number=phone)] is
    built, [now] the later reading of [now = datetime.utcnow()]. *)
Definition save_body (svc : MemoryService) (phone : string)
    (history : list Message) (llm : option LLM) (created now : Z)
    : res (bool * MemoryService) :=
  found <- store_get (svc_store svc) phone ;;
  new_facts <- new_facts_of history llm ;;
  let memory := built_memory phone found new_facts created now in
  st' <- store_save (svc_store svc) phone memory ;;
  Ok (true, mkMemoryService (svc_enabled svc) (svc_phone_number svc)
              (svc_loaded_memory svc) st').

(** [MemoryService.save(phone_number, conversation_history, llm)], with the
    clock readings [created] and [now] of [save_body]. *)
Definition save (svc : MemoryService) (phone_number : option string)
    (history : list Message) (llm : option LLM) (created now : Z)
    : res (bool * MemoryService) :=
  if negb (svc_enabled svc) then Ok (false, svc) else
  match py_or phone_number (svc_phone_number svc) with
  | None => Ok (false, svc)
  | Some phone =>
      if negb (truthy phone) then Ok (false, svc) else
      try_except (save_body svc phone history llm created now) (fun _ => (false, svc))
  end.

(** The [try] block of [MemoryService.load]. *)
Definition load_body (svc : MemoryService) (phone : string) (now : Z)
    : res (option CallerMemory * MemoryService) :=
  found <- store_get (svc_store svc) phone ;;
  match found with
  | Some m =>
      let m' := mkCallerMemory (phone_number m) (first_call_date m)
                  (last_call_date m) (call_count m)
                  (filter_expired_facts now (facts m) TTL_DAYS) in
      Ok (Some m', mkMemoryService (svc_enabled svc) (svc_phone_number svc)
                     (Some m') (svc_store svc))
  | None => Ok (None, svc)
  end.

(** [MemoryService.load(phone_number)], at time [now]. *)
Definition load (svc : MemoryService) (phone_number : option string) (now : Z)
    : res (option CallerMemory * MemoryService) :=
  if negb (svc_enabled svc) then Ok (None, svc) else
  match py_or phone_number (svc_phone_number svc) with
  | None => Ok (None, svc)
  | Some phone =>
      if negb (truthy phone) then Ok (None, svc) else
      try_except (load_body svc phone now) (fun _ => (None, svc))
  end.

End Service.

Arguments mkMemoryService {St} svc_enabled svc_phone_number svc_loaded_memory svc_store.
Arguments svc_enabled {St} m.
Arguments svc_phone_number {St} m.
Arguments svc_loaded_memory {St} m.
Arguments svc_store {St} m.
Arguments extract_facts {LLM} llm_extract l history.
Arguments new_facts_of {LLM} llm_extract history llm.
Arguments save_body {St} store_get store_save {LLM} llm_extract svc phone history llm created now.
Arguments save {St} store_get store_save {LLM} llm_extract svc phone_number history llm created now.
Arguments load_body {St} store_get svc phone now.
Arguments load {St} store_get svc phone_number now.

(* ------------------------------------------------------------------ *)
(** ** The local file backend ([siphon/memory/storage/local.py]) *)

(** [s.lstrip(c)] for a one-character argument. *)
Fixpoint lstrip_char (c : ascii) (s : string) : string :=
  match s with
  | EmptyString => EmptyString
  | String a s' => if Ascii.eqb a c then lstrip_char c s' else s
  end.

(** [s.replace(a, b)] for one-character arguments. *)
Fixpoint replace_char (a b : ascii) (s : string) : string :=
  match s with
  | EmptyString => EmptyString
  | String c s' => String (if Ascii.eqb c a then b else c) (replace_char a b s')
  end.

(** [os.path.join(base, name)] on POSIX for two components. *)
Definition os_path_join (base name : string) : string :=
  match name with
  | String "/"%char _ => name
  | _ => match base with
         | EmptyString => name
         | _ => if String.eqb (substring (String.length base - 1) 1 base) "/"
                then base ++ name else base ++ "/" ++ name
         end
  end.

(** [LocalMemoryStore._get_file_path(phone_number)] *)
Definition get_file_path (base_folder phone : string) : string :=
  let safe_phone :=
    replace_char "-"%char "_"%char
      (replace_char " "%char "_"%char (lstrip_char "+"%char phone)) in
  os_path_join base_folder (safe_phone ++ ".json").

(** What a file of the folder holds.  [json.dump(memory.model_dump(),
    default=str)] followed by [CallerMemory.model_validate(json.load(f))]
    gives the record back, so a complete file holds the record itself; any
    other content (a write cut short, text that is not JSON or not a valid
    record, a file that cannot be opened) makes [get] fail and return
    [None]. *)
Inductive FileContent :=
| Valid (m : CallerMemory)
| Unreadable.

(** The folder: file path to file content. *)
Definition Files := list (string * FileContent).

Fixpoint file_lookup (fs : Files) (path : string) : option FileContent :=
  match fs with
  | [] => None
  | (q, d) :: fs' => if String.eqb q path then Some d else file_lookup fs' path
  end.

(** [open(file_path, "w")]: the file is replaced. *)
Definition file_write (fs : Files) (path : string) (d : FileContent) : Files :=
  (path, d) :: filter (fun e => negb (String.eqb (fst e) path)) fs.

(** [LocalMemoryStore.get(phone_number)]: [None] when the file is missing,
    and also when reading or validating it raises (the [except] returns
    [None]). *)
Definition local_get (base_folder : string) (fs : Files) (phone : string)
    : res (option CallerMemory) :=
  match file_lookup fs (get_file_path base_folder phone) with
  | Some (Valid m) => Ok (Some m)
  | Some Unreadable => Ok None
  | None => Ok None
  end.

(** How the [try] block of [LocalMemoryStore.save] ends: the file is
    written; [open] raises (the folder is unchanged); or [json.dump] raises
    after [open] has truncated the file (an incomplete JSON text is left). *)
Inductive WriteOutcome :=
| Written
| OpenFailed
| DumpFailed.

(** [LocalMemoryStore.save(phone_number, memory)]: its [except] catches
    every failure, so it always returns normally. *)
Definition local_save_with (o : WriteOutcome) (base_folder : string) (fs : Files)
    (phone : string) (m : CallerMemory) : res Files :=
  let file_path := get_file_path base_folder phone in
  match o with
  | Written => Ok (file_write fs file_path (Valid m))
  | OpenFailed => Ok fs
  | DumpFailed => Ok (file_write fs file_path Unreadable)
  end.

(** [LocalMemoryStore.save] whose file write succeeds. *)
Definition local_save : string -> Files -> string -> CallerMemory -> res Files :=
  local_save_with Written.

(** The default folder of [LocalMemoryStore]. *)
Definition CALL_MEMORY : string := "Call_Memory".

(* ------------------------------------------------------------------ *)
(** ** The extractor ([siphon/memory/extraction/llm_extractor.py]) *)

(** [str.upper()] on an ASCII character; other bytes are kept.  This is
    [str.upper()] on ASCII text, such as the roles "user", "assistant" and
    "unknown". *)
Definition upper_char (c : ascii) : ascii :=
  let n := nat_of_ascii c in
  if ((97 <=? n) && (n <=? 122))%nat then ascii_of_nat (n - 32) else c.

Fixpoint upper (s : string) : string :=
  match s with
  | EmptyString => EmptyString
  | String c s' => String (upper_char c) (upper s')
  end.

(** [sep.join(parts)] *)
Fixpoint join (sep : string) (parts : list string) : string :=
  match parts with
  | [] => EmptyString
  | [x] => x
  | x :: xs => x ++ sep ++ join sep xs
  end.

(** [FactExtractor._format_conversation(conversation_history)] *)
Definition format_conversation (history : list Message) : string :=
  join (String (ascii_of_nat 10) EmptyString)
    (map (fun msg => (upper (match role msg with Some r => r | None => "unknown" end)
                      ++ ": " ++ content msg)%string)
         (filter (fun msg => truthy (content msg)) history)).

(** [any(msg.get('role') == 'user' and msg.get('content', '').strip() ...)] *)
Definition has_user_content (history : list Message) : bool :=
  existsb (fun msg => match role msg with
                      | Some r => String.eqb r "user" && truthy (strip (content msg))
                      | None => false
                      end) history.

(** [s.replace(a, b)] for a one-character [a]. *)
Fixpoint replace_with (a : ascii) (b : string) (s : string) : string :=
  match s with
  | EmptyString => EmptyString
  | String c s' => (if Ascii.eqb c a then b else String c EmptyString) ++ replace_with a b s'
  end.

(** [conversation_text.replace("{", "{{").replace("}", "}}")] *)
Definition escape_braces (s : string) : string :=
  replace_with "}"%char "}}" (replace_with "{"%char "{{" s).

(** The three templates of [build_extraction_prompt], with what is
    interpolated into them. *)
Inductive Prompt :=
| ExtractionPrompt (conversation_text : string)
| RetryPrompt (error_message : string) (conversation_text : string)
| StrictRetryPrompt (conversation_text : string).

(** [build_extraction_prompt(conversation_text, is_retry, error_message,
    is_final_attempt)] *)
Definition build_extraction_prompt (conversation_text : string) (is_retry : bool)
    (error_message : option string) (is_final_attempt : bool) : Prompt :=
  if is_final_attempt then StrictRetryPrompt conversation_text else
  match is_retry, error_message with
  | true, Some e => if truthy e then RetryPrompt e conversation_text
                    else ExtractionPrompt conversation_text
  | _, _ => ExtractionPrompt conversation_text
  end.

(** The message stored in [last_error] by each [except] clause. *)
Definition error_text (e : PyException) : string :=
  match e with
  | Exception cls msg =>
      if String.eqb cls "JSONDecodeError" then "JSON parse error: " ++ msg
      else if String.eqb cls "ValidationError" then "Validation error: " ++ msg
      else "Unexpected error: " ++ msg
  end.

(** [str(last_error) if last_error else None] *)
Definition error_arg (last_error : option string) : option string :=
  match last_error with
  | Some e => if truthy e then Some e else None
  | None => None
  end.

Section Extractor.

(** [self._extract_with_llm(prompt)]: one call of the text-generation
    capability; [None] when it returns nothing (its own errors are caught
    there and also give [None]). *)
Variable generate : Prompt -> option string.

(** [self._parse_and_validate(result_text)]: the cleaning, JSON parsing,
    repair pass, schema validation and filtering; it returns the facts or
    raises. *)
Variable parse_and_validate : string -> res (list Fact).

Variable max_retries : Z.

(** The [for attempt in range(1, max_retries + 1)] loop, from [attempt] on,
    with [fuel] attempts left.  It returns the result and the prompts sent
    to the model, in order. *)
Fixpoint attempt_loop (fuel : nat) (attempt : Z) (last_error : option string)
    (safe_text : string) : ExtractionResult * list Prompt :=
  match fuel with
  | O => (mkExtractionResult [] None false last_error, [])
  | S fuel' =>
      let prompt := build_extraction_prompt safe_text (1 <? attempt)
                      (error_arg last_error) (attempt =? max_retries) in
      let '(result, calls) :=
        match generate prompt with
        | Some text =>
            if negb (truthy text)
            then attempt_loop fuel' (attempt + 1) (Some "Empty response from LLM") safe_text
            else match parse_and_validate text with
                 | Ok fs => (mkExtractionResult fs (Some text) true None, [])
                 | Err e => attempt_loop fuel' (attempt + 1) (Some (error_text e)) safe_text
                 end
        | None => attempt_loop fuel' (attempt + 1) (Some "Empty response from LLM") safe_text
        end in
      (result, prompt :: calls)
  end.

(** [LLMFactExtractor.extract(conversation_history)] *)
Definition extract (history : list Message) : ExtractionResult * list Prompt :=
  match history with
  | [] => (empty_success, [])
  | _ =>
      if negb (has_user_content history) then (empty_success, []) else
      let conversation_text := format_conversation history in
      if negb (truthy (strip conversation_text)) then (empty_success, []) else
      attempt_loop (Z.to_nat max_retries) 1 None (escape_braces conversation_text)
  end.

End Extractor.

(** Whether a string has a character that is not whitespace: the truth
    value of [s.strip()]. *)
Definition has_nonspace (s : string) : bool := truthy (strip s).

(* ------------------------------------------------------------------ *)
(** ** The formatter ([siphon/memory/enrichment.py]) *)

(** [class MemoryContext(BaseModel)] *)
Record MemoryContext := mkMemoryContext {
  has_history : bool;
  ctx_call_count : Z;
  ctx_last_call_date : option string;
  formatted_facts : string;
  full_context : string
}.

(** [MemoryContext()] *)
Definition empty_context : MemoryContext := mkMemoryContext false 0 None "" "".

Definition is_alpha (c : ascii) : bool :=
  let n := nat_of_ascii c in ((65 <=? n) && (n <=? 90) || (97 <=? n) && (n <=? 122))%nat.

Definition lower_char (c : ascii) : ascii :=
  let n := nat_of_ascii c in
  if ((65 <=? n) && (n <=? 90))%nat then ascii_of_nat (n + 32) else c.

(** [str.title()] on ASCII text: a letter after a letter is lowered, any
    other letter is raised (non-ASCII bytes are kept and count as uncased). *)
Fixpoint title_from (prev_cased : bool) (s : string) : string :=
  match s with
  | EmptyString => EmptyString
  | String c s' =>
      String (if is_alpha c then (if prev_cased then lower_char c else upper_char c) else c)
             (title_from (is_alpha c) s')
  end.

(** [fact.key.replace("_", " ").title()] *)
Definition key_display (k : string) : string :=
  title_from false (replace_char "_"%char " "%char k).

(** [needle in hay] for strings. *)
Fixpoint contains (needle hay : string) : bool :=
  match hay with
  | EmptyString => String.prefix needle hay
  | String _ hay' => String.prefix needle hay || contains needle hay'
  end.

(** [x in [...]] for a list of strings. *)
Definition str_in (x : string) (l : list string) : bool := existsb (String.eqb x) l.

Fixpoint digits_of_nat (fuel n : nat) (acc : string) : string :=
  match fuel with
  | O => acc
  | S fuel' =>
      let acc' := String (ascii_of_nat (48 + n mod 10)) acc in
      if (n <? 10)%nat then acc' else digits_of_nat fuel' (n / 10) acc'
  end.

(** [str(n)] for an [int]. *)
Definition string_of_Z (z : Z) : string :=
  if z <? 0 then "-" ++ digits_of_nat (S (Z.to_nat (- z))) (Z.to_nat (- z)) ""
  else digits_of_nat (S (Z.to_nat z)) (Z.to_nat z) "".

(** [MemoryEnricher.max_facts_in_prompt] (default 10). *)
Definition MAX_FACTS_IN_PROMPT : nat := 10.

(** [sorted(memory.facts, key=importance, reverse=True)[:max_facts_in_prompt]] *)
Definition top_facts (memory : CallerMemory) : list Fact :=
  firstn MAX_FACTS_IN_PROMPT (sort_desc (facts memory)).

Definition summary_facts (top : list Fact) : list Fact :=
  filter (fun f => str_in (key f) ["call_summary"; "conversation_summary"]) top.
Definition action_facts (top : list Fact) : list Fact :=
  filter (fun f => str_in (key f) ["next_action"; "follow_up_needed"; "incomplete_task"]) top.
Definition personal_facts (top : list Fact) : list Fact :=
  filter (fun f => str_in (key f) ["user_name"; "contact_number"; "email"]) top.
Definition appointment_facts (top : list Fact) : list Fact :=
  filter (fun f => contains "appointment" (key f) || contains "schedule" (key f)) top.
Definition other_facts (top : list Fact) : list Fact :=
  filter (fun f => negb (str_in (key f)
                           ["call_summary"; "conversation_summary"; "next_action";
                            "follow_up_needed"; "incomplete_task"; "user_name";
                            "contact_number"; "email"])
                   && negb (contains "appointment" (key f))
                   && negb (contains "schedule" (key f))) top.

(** The bullet "•" (U+2022), as its UTF-8 bytes. *)
Definition BULLET : string :=
  String (ascii_of_nat 226) (String (ascii_of_nat 128) (String (ascii_of_nat 162) EmptyString)).

(** [f"  {fact.value}"] (summary lines) *)
Definition summary_line (f : Fact) : string := "  " ++ value f.

(** [f"  • {key_display}: {fact.value}"] (actions, personal, appointments) *)
Definition item_line (f : Fact) : string :=
  "  " ++ BULLET ++ " " ++ key_display (key f) ++ ": " ++ value f.

(** [if len(value) > 100: value = value[:97] + "..."] *)
Definition truncate_value (v : string) : string :=
  if (100 <? py_len v)%nat then py_prefix 97 v ++ "..." else v.

(** [f"  • {key_display}: {value}"] with the truncated value (other facts) *)
Definition other_line (f : Fact) : string :=
  "  " ++ BULLET ++ " " ++ key_display (key f) ++ ": " ++ truncate_value (value f).

(** [if bucket: sections.append(title); for fact in bucket[:cap]: ...;
    sections.append("")] *)
Definition block (title : string) (bucket : list Fact) (cap : nat)
    (line : Fact -> string) : list string :=
  match bucket with
  | [] => []
  | _ => title :: map line (firstn cap bucket) ++ [""]
  end.

Section Formatter.

(** [memory.last_call_date.strftime("%B %d, %Y")] *)
Variable strftime : Z -> string.

(** The [sections] list built by [MemoryEnricher.format]. *)
Definition format_sections (memory : CallerMemory) : list string :=
  let last_call_str := strftime (last_call_date memory) in
  let top := top_facts memory in
  ["---"; "Previous Conversation Context:"; ""] ++
  (if 1 <? call_count memory then
     [if truthy last_call_str
      then ("This user has called " ++ string_of_Z (call_count memory) ++
            " times previously. Last call was on " ++ last_call_str ++ ".")%string
      else ("This user has called " ++ string_of_Z (call_count memory) ++
            " times previously.")%string; ""]
   else []) ++
  block "SUMMARY:" (summary_facts top) 2 summary_line ++
  block "NEXT ACTIONS / FOLLOW-UPS:" (action_facts top) 3 item_line ++
  block "PERSONAL INFO:" (personal_facts top) 3 item_line ++
  block "APPOINTMENTS:" (appointment_facts top) 3 item_line ++
  block "OTHER KEY DETAILS:" (other_facts top) 5 other_line.

(** [MemoryEnricher.format(memory)] *)
Definition format (memory : option CallerMemory) : MemoryContext :=
  match memory with
  | None => empty_context
  | Some m =>
      if call_count m <? 1 then empty_context else
      match facts m with
      | [] => empty_context
      | _ =>
          let nl := String (ascii_of_nat 10) EmptyString in
          mkMemoryContext true (call_count m) (Some (strftime (last_call_date m)))
            (join nl (map (fun f => ("- " ++ key_display (key f) ++ ": " ++ value f)%string)
                          (firstn MAX_FACTS_IN_PROMPT (top_facts m))))
            (join nl (format_sections m))
      end
  end.

End Formatter.

(* ------------------------------------------------------------------ *)
(** ** Response cleaning, key normalisation and the fact filter
    ([llm_extractor.py], [extraction/schemas.py]) *)

(** [str.lower()] on ASCII letters; other bytes are kept.  Where the code
    searches a lowered text for ASCII patterns (the context indicators, the
    prefixes of [_clean_response_text], the schemes of [create_memory_store])
    this gives Python's answer: the only non-ASCII characters whose
    lowercase holds an ASCII letter are U+0130 (to "i" then U+0307) and
    U+212A (to "k"), and no pattern has a "k" or an "i" that could be
    followed by U+0307. *)
Fixpoint lower (s : string) : string :=
  match s with
  | EmptyString => EmptyString
  | String c s' => String (lower_char c) (lower s')
  end.

(** [s.startswith(p)] *)
Definition startswith (p s : string) : bool := String.prefix p s.

(** [s.endswith(p)] *)
Definition endswith (p s : string) : bool :=
  (String.length p <=? String.length s)%nat &&
  String.eqb (substring (String.length s - String.length p) (String.length p) s) p.

(** [s[n:]] when the first [n] characters of [s] are ASCII (one byte each),
    as they are at each use below. *)
Definition drop_front (n : nat) (s : string) : string :=
  substring n (String.length s - n) s.

(** [s[:-n]] when the last [n] characters of [s] are ASCII, as they are at
    each use below. *)
Definition drop_back (n : nat) (s : string) : string :=
  substring 0 (String.length s - n) s.

(** The [prefixes_to_remove] of [_clean_response_text], in order. *)
Definition prefixes_to_remove : list string :=
  ["Here is the extracted JSON:"; "Here's the JSON output:"; "Extracted facts:";
   "JSON Response:"; "Output:"].

(** [LLMFactExtractor._clean_response_text(text)] *)
Definition clean_response_text (text : string) : string :=
  let text := strip text in
  let text := if startswith "```json" text then drop_front 7 text
              else if startswith "```" text then drop_front 3 text
              else text in
  let text := if endswith "```" text then drop_back 3 text else text in
  let text := strip text in
  fold_left (fun text prefix =>
               if startswith (lower prefix) (lower text)
               then strip (drop_front (String.length prefix) text)
               else text)
            prefixes_to_remove text.

(** [class ExtractedFact(BaseModel)], once validated. *)
Record ExtractedFact := mkExtractedFact {
  ef_key : string;
  ef_value : string;
  ef_importance : Z
}.


(** The [context_indicators] of [_has_sufficient_context]. *)
Definition context_indicators : list string :=
  ["("; " - "; ": "; "for"; "at"; "on"; "to"].

(** [LLMFactExtractor._has_sufficient_context(extracted_fact)] *)
Definition has_sufficient_context (extracted_fact : ExtractedFact) : bool :=
  let v := strip (ef_value extracted_fact) in
  if (py_len v <? 8)%nat then false
  else if contains "(" v && contains ")" v then true
  else if (15 <=? py_len v)%nat then true
  else existsb (fun indicator => contains indicator (lower v)) context_indicators.

(** [l[:n]] for a Python [int] [n]: a negative bound counts from the end. *)
Definition take_py {A : Type} (n : Z) (l : list A) : list A :=
  firstn (Z.to_nat (if n <? 0 then Z.of_nat (length l) + n else n)) l.

(** The loop closing [_parse_and_validate]: the validated facts at or above
    [min_importance] and with enough context become
    [Fact(key, value, importance, source="llm")], and [facts[:max_facts]] is
    returned.  [now] is the reading of [datetime.utcnow()] taken by the
    default factory of [Fact.extracted_at]. *)
Definition filter_validated_facts (min_importance max_facts now : Z)
    (validated : list ExtractedFact) : list Fact :=
  take_py max_facts
    (map (fun ef => mkFact (ef_key ef) (ef_value ef) (ef_importance ef) now (Some "llm"))
         (filter (fun ef => (min_importance <=? ef_importance ef) && has_sufficient_context ef)
                 validated)).

(** The conversation text interpolated into a prompt; [str.format] inserts
    argument values verbatim (it interprets braces of the template only). *)
Definition prompt_conversation_text (p : Prompt) : string :=
  match p with
  | ExtractionPrompt t => t
  | RetryPrompt _ t => t
  | StrictRetryPrompt t => t
  end.

(** [s.count(c)] for one character. *)
Fixpoint count_char (c : ascii) (s : string) : nat :=
  match s with
  | EmptyString => O
  | String a s' => ((if Ascii.eqb a c then 1 else 0) + count_char c s')%nat
  end.

(* ------------------------------------------------------------------ *)
(** ** Prompt enrichment ([MemoryEnricher.enhance_instructions]) *)

Definition NL : string := String (ascii_of_nat 10) EmptyString.

(** The sixteen spaces that indent the lines of the f-string. *)
Definition INDENT : string := "                ".

Section Enhance.

Variable strftime : Z -> string.

(** [memory_aware_prompt] ([siphon/agent/internal_prompts/memory_aware.py]) *)
Variable memory_aware_prompt : string.

(** [MemoryEnricher.enhance_instructions(base_instructions, memory)] *)
Definition enhance_instructions (base_instructions : string)
    (memory : option CallerMemory) : string :=
  let context := format strftime memory in
  if negb (truthy (full_context context)) then base_instructions else
  (base_instructions ++ NL ++ NL ++ INDENT ++ memory_aware_prompt ++ NL ++ NL ++
   INDENT ++ full_context context ++ NL ++ INDENT)%string.

End Enhance.

(* ------------------------------------------------------------------ *)
(** ** The rest of [MemoryService] *)

(** [memory or self._loaded_memory]: a [CallerMemory] (a pydantic model
    without [__bool__] or [__len__]) is always truthy. *)
Definition memory_or_loaded {St : Type} (svc : MemoryService St)
    (memory : option CallerMemory) : option CallerMemory :=
  match memory with
  | Some m => Some m
  | None => svc_loaded_memory svc
  end.

(** [MemoryService.format_memory_for_prompt(memory)], with the default
    [MemoryEnricher()]. *)
Definition svc_format_memory_for_prompt {St : Type} (strftime : Z -> string)
    (svc : MemoryService St) (memory : option CallerMemory) : string :=
  full_context (format strftime (memory_or_loaded svc memory)).

(** [MemoryService.enhance_instructions(base_instructions, memory)] *)
Definition svc_enhance_instructions {St : Type} (strftime : Z -> string)
    (memory_aware_prompt : string) (svc : MemoryService St)
    (base_instructions : string) (memory : option CallerMemory) : string :=
  enhance_instructions strftime memory_aware_prompt base_instructions
    (memory_or_loaded svc memory).

(** Truthiness of an [Optional[str]]. *)
Definition opt_truthy (o : option string) : bool :=
  match o with Some s => truthy s | None => false end.

(** [MemoryService.update_phone_number(phone_number)] *)
Definition update_phone_number {St : Type} (svc : MemoryService St)
    (phone_number : string) : MemoryService St :=
  if truthy phone_number && negb (opt_truthy (svc_phone_number svc))
  then mkMemoryService (svc_enabled svc) (Some phone_number)
         (svc_loaded_memory svc) (svc_store svc)
  else svc.

(** The first truthy string of a list. *)
Fixpoint first_truthy (l : list string) : option string :=
  match l with
  | [] => None
  | s :: l' => if truthy s then Some s else first_truthy l'
  end.

(* ------------------------------------------------------------------ *)
(** ** The rest of [LocalMemoryStore] *)

(** [os.path.exists(file_path)] *)
Definition file_exists (fs : Files) (path : string) : bool :=
  match file_lookup fs path with Some _ => true | None => false end.

(** [os.remove(file_path)] *)
Definition file_remove (fs : Files) (path : string) : Files :=
  filter (fun e => negb (String.eqb (fst e) path)) fs.

(** [LocalMemoryStore.delete(phone_number)]: its result and the folder
    after.  [removed] tells whether [os.remove] succeeds; when it raises,
    the [except] returns [False] and the file stays. *)
Definition local_delete_with (removed : bool) (base_folder : string) (fs : Files)
    (phone : string) : bool * Files :=
  let file_path := get_file_path base_folder phone in
  if file_exists fs file_path then
    (if removed then (true, file_remove fs file_path) else (false, fs))
  else (false, fs).

(** [LocalMemoryStore.delete] whose [os.remove] succeeds. *)
Definition local_delete : string -> Files -> string -> bool * Files :=
  local_delete_with true.

(** [LocalMemoryStore.exists(phone_number)] *)
Definition local_exists (base_folder : string) (fs : Files) (phone : string) : bool :=
  file_exists fs (get_file_path base_folder phone).

(* ------------------------------------------------------------------ *)
(** ** [create_memory_store] ([siphon/memory/storage/__init__.py]) *)



(* ------------------------------------------------------------------ *)
(** ** Concrete inputs *)

Definition phone1 : string := "+15551234567".

(** A call in which the caller said something. *)
Definition hist_hi : list Message :=
  [mkMessage (Some "assistant") "Hello, how can I help?";
   mkMessage (Some "user") "Please move my appointment to Friday (3pm)"].

(** An LLM whose extraction raises. *)
Definition raising_llm (_ : unit) (_ : list Message) : res ExtractionResult :=
  Err (Exception "RuntimeError" "model unavailable").

(** A [MemoryService] for [phone1] on a [LocalMemoryStore]. *)
Definition local_service (fs : Files) : MemoryService Files :=
  mkMemoryService true (Some phone1) None fs.

Definition save_local := save (local_get CALL_MEMORY) (local_save CALL_MEMORY) raising_llm.

(** A fact extracted at time 0, and a stored record holding it. *)
Definition old_fact : Fact := mkFact "user_name" "Sam (introduced at start)" 10 0 (Some "llm").
Definition r_old : CallerMemory := mkCallerMemory phone1 0 0 1 [old_fact].
Definition fs_old : Files := file_write [] (get_file_path CALL_MEMORY phone1) (Valid r_old).

(** One hundred days after time 0. *)
Definition now100 : Z := 100 * DAY.

(** An earlier clock reading, taken when [save] builds a new record. *)
Definition now99 : Z := 99 * DAY.

(** A model that always answers with text that is not JSON, and the parse
    failure [_parse_and_validate] raises on it. *)
Definition garbage_generate (_ : Prompt) : option string := Some "Sure! Here are the facts".
Definition json_fails (_ : string) : res (list Fact) :=
  Err (Exception "JSONDecodeError" "Invalid JSON: Expecting value: line 1 column 1 (char 0)").

(** A call whose only caller utterance is whitespace. *)
Definition blank_caller : Message := mkMessage (Some "user") "   ".

(** A fact with key [k], value [v] and importance [i] (other fields fixed). *)
Definition fct (k v : string) (i : Z) : Fact := mkFact k v i 0 None.

(** The sixteen-fact update used against C1: key "k" is in both lists, at
    importance 1, and fifteen more keys come in at importance 10. *)
Definition c1_existing : list Fact := [fct "k" "old" 1].
Definition c1_new : list Fact :=
  fct "k" "new" 1 ::
  map (fun k => fct k "detail" 10)
    ["a"; "b"; "c"; "d"; "e"; "f"; "g"; "h"; "i"; "j"; "l"; "m"; "n"; "o"; "p"].

(** Two facts: one exactly at the 90-day boundary, one a microsecond older. *)
Definition boundary_fact : Fact := mkFact "user_name" "Sam (introduced at start)" 10 (now100 - TTL_DAYS * DAY) None.
Definition older_fact : Fact := mkFact "next_action" "Will call back for booking" 8 (now100 - TTL_DAYS * DAY - 1) None.
Definition r_boundary : CallerMemory := mkCallerMemory phone1 0 0 1 [boundary_fact; older_fact].




(** The error [json.loads] raises on a non-JSON answer. *)
Definition json_error : PyException :=
  Exception "JSONDecodeError" "Invalid JSON: Expecting value: line 1 column 1 (char 0)".

(** A call whose caller quotes a code in braces. *)
Definition hist_brace : list Message :=
  [mkMessage (Some "user") "My door code is {1234}"].

(** A second, unknown caller. *)
Definition phone2 : string := "+15550000000".

(** The service after loading [phone1] from [fs_old]. *)
Definition loaded_service : MemoryService Files :=
  mkMemoryService true (Some phone1) (Some r_old) fs_old.

(** The service after saving [hist_hi] for [phone1] over [fs_old]. *)
Definition saved_service : MemoryService Files :=
  match save_local (local_service fs_old) (Some phone1) hist_hi (Some tt) now99 now100 with
  | Ok (_, s) => s
  | Err _ => local_service fs_old
  end.

(** Validated facts: one with context, one too short, one below the
    importance threshold. *)
Definition ef_sample : list ExtractedFact :=
  [mkExtractedFact "user_name" "Sam (the caller)" 9;
   mkExtractedFact "pet" "a cat" 9;
   mkExtractedFact "preference" "Prefers calls in the morning" 3].

(** A record with a call but no facts. *)
Definition r_nofacts : CallerMemory := mkCallerMemory phone1 0 0 1 [].

(* ------------------------------------------------------------------ *)
(** ** Lemmas on the dict model and the stable sort *)

Section MergeLemmas.

Lemma in_dict_set (m : list Fact) (f g : Fact) :
  In g (dict_set m f) -> g = f \/ In g m.
Proof.
  induction m as [|h m IH]; simpl; intros H.
  - destruct H as [H|[]]; auto.
  - destruct (String.eqb (key h) (key f)); simpl in H.
    + destruct H as [H|H]; auto.
    + destruct H as [H|H]; auto. destruct (IH H); auto.
Qed.

Lemma keys_dict_set (m : list Fact) (f : Fact) (k : string) :
  In k (map key (dict_set m f)) <-> In k (map key m) \/ k = key f.
Proof.
  induction m as [|h m IH]; simpl.
  - intuition.
  - destruct (String.eqb (key h) (key f)) eqn:E; simpl.
    + apply String.eqb_eq in E. rewrite E. intuition.
    + rewrite IH. intuition.
Qed.

Lemma nodup_dict_set (m : list Fact) (f : Fact) :
  NoDup (map key m) -> NoDup (map key (dict_set m f)).
Proof.
  induction m as [|h m IH]; simpl; intros Hn.
  - constructor; [intros []|constructor].
  - inversion Hn as [|? ? Hnot Hn']; subst.
    destruct (String.eqb (key h) (key f)) eqn:E; simpl.
    + apply String.eqb_eq in E. rewrite <- E. constructor; auto.
    + constructor; auto. rewrite keys_dict_set. intros [H|H]; auto.
      rewrite H, String.eqb_refl in E. discriminate.
Qed.

Lemma nodup_dict_set_all (m l : list Fact) :
  NoDup (map key m) -> NoDup (map key (dict_set_all m l)).
Proof.
  revert m; induction l as [|f l IH]; simpl; intros m Hn; auto.
  apply IH, nodup_dict_set, Hn.
Qed.

Lemma in_key_dict_set_all (m l : list Fact) (k : string) :
  In k (map key m) -> In k (map key (dict_set_all m l)).
Proof.
  revert m; induction l as [|f l IH]; simpl; intros m H; auto.
  apply IH. apply keys_dict_set. auto.
Qed.

(** After [fact_map[f.key] = f] on a dict with unique keys, [f] is the
    only entry under its key. *)
Lemma dict_set_key_unique (m : list Fact) (f g : Fact) :
  NoDup (map key m) -> In g (dict_set m f) -> key g = key f -> g = f.
Proof.
  induction m as [|h m IH]; simpl; intros Hn H Hk.
  - destruct H as [H|[]]; auto.
  - inversion Hn as [|? ? Hnot Hn']; subst.
    destruct (String.eqb (key h) (key f)) eqn:E; simpl in H.
    + apply String.eqb_eq in E. destruct H as [H|H]; auto.
      exfalso. apply Hnot. rewrite E, <- Hk. apply in_map, H.
    + destruct H as [H|H]; auto. subst. rewrite Hk, String.eqb_refl in E.
      discriminate.
Qed.

Lemma dict_set_all_untouched (m l : list Fact) (k : string) (g : Fact) :
  (forall x, In x l -> key x <> k) ->
  In g (dict_set_all m l) -> key g = k -> In g m.
Proof.
  revert m; induction l as [|f l IH]; simpl; intros m Hl H Hk; auto.
  specialize (IH (dict_set m f) (fun x Hx => Hl x (or_intror Hx)) H Hk).
  destruct (in_dict_set _ _ _ IH) as [E|E]; auto.
  subst. exfalso. apply (Hl f); auto.
Qed.

Lemma last_with_none (k : string) (l : list Fact) :
  last_with k l = None -> forall x, In x l -> key x <> k.
Proof.
  induction l as [|f l IH]; simpl; intros H x Hx; [destruct Hx|].
  destruct (last_with k l); [discriminate|].
  destruct (String.eqb (key f) k) eqn:E; [discriminate|].
  destruct Hx as [Hx|Hx]; auto. subst. intros Hk.
  rewrite Hk, String.eqb_refl in E. discriminate.
Qed.

Lemma last_with_key (k : string) (l : list Fact) (f : Fact) :
  last_with k l = Some f -> key f = k /\ In f l.
Proof.
  induction l as [|h l IH]; simpl; intros H; [discriminate|].
  destruct (last_with k l) eqn:E.
  - inversion H; subst. destruct (IH eq_refl); auto.
  - destruct (String.eqb (key h) k) eqn:E2; [|discriminate].
    inversion H; subst. apply String.eqb_eq in E2. auto.
Qed.

(** Last write wins in the dict. *)
Lemma dict_set_all_last (m l : list Fact) (k : string) (f g : Fact) :
  NoDup (map key m) -> last_with k l = Some f ->
  In g (dict_set_all m l) -> key g = k -> g = f.
Proof.
  revert m; induction l as [|h l IH]; simpl; intros m Hn Hl H Hk;
    [discriminate|].
  destruct (last_with k l) eqn:E.
  - injection Hl as <-.
    apply (IH (dict_set m h)); auto. apply nodup_dict_set, Hn.
  - destruct (String.eqb (key h) k) eqn:E2; [|discriminate].
    injection Hl as <-. apply String.eqb_eq in E2.
    pose proof (dict_set_all_untouched _ _ _ _ (last_with_none _ _ E) H Hk) as Hin.
    apply (dict_set_key_unique m); auto. congruence.
Qed.

Lemma in_insert_desc (f g : Fact) (l : list Fact) :
  In g (insert_desc f l) <-> g = f \/ In g l.
Proof.
  induction l as [|h l IH]; simpl.
  - intuition.
  - destruct (importance h <=? importance f); simpl; [intuition|].
    rewrite IH. intuition.
Qed.

Lemma perm_insert_desc (f : Fact) (l : list Fact) :
  Permutation (insert_desc f l) (f :: l).
Proof.
  induction l as [|h l IH]; simpl; auto.
  destruct (importance h <=? importance f); auto.
  eapply perm_trans; [apply perm_skip, IH|apply perm_swap].
Qed.

Lemma perm_sort_desc (l : list Fact) : Permutation (sort_desc l) l.
Proof.
  induction l as [|f l IH]; simpl; auto.
  eapply perm_trans; [apply perm_insert_desc|]. auto.
Qed.

Lemma sorted_insert_desc (f : Fact) (l : list Fact) :
  sorted_desc l -> sorted_desc (insert_desc f l).
Proof.
  unfold sorted_desc. induction l as [|h l IH]; simpl; intros Hs.
  - repeat constructor.
  - destruct (importance h <=? importance f) eqn:E.
    + apply Z.leb_le in E. constructor; auto.
    + apply Z.leb_gt in E. apply Sorted_inv in Hs as [Hs Hh].
      constructor; auto.
      destruct l as [|h' l]; simpl.
      * constructor. lia.
      * inversion Hh; subst.
        destruct (importance h' <=? importance f); constructor; lia.
Qed.

Lemma sorted_sort_desc (l : list Fact) : sorted_desc (sort_desc l).
Proof.
  induction l as [|f l IH]; simpl; [constructor|].
  apply sorted_insert_desc, IH.
Qed.

(** A sorted list is left unchanged by the stable sort. *)
Lemma sort_desc_sorted_id (l : list Fact) : sorted_desc l -> sort_desc l = l.
Proof.
  unfold sorted_desc. induction l as [|f l IH]; simpl; intros Hs; auto.
  apply Sorted_inv in Hs as [Hs Hh]. rewrite (IH Hs).
  destruct l as [|h l]; simpl; auto.
  inversion Hh; subst. apply Z.leb_le in H0. now rewrite H0.
Qed.

Lemma sorted_firstn (n : nat) (l : list Fact) :
  sorted_desc l -> sorted_desc (firstn n l).
Proof.
  unfold sorted_desc. revert l; induction n as [|n IH]; intros l Hs;
    simpl; [constructor|].
  destruct l as [|f l]; [constructor|].
  apply Sorted_inv in Hs as [Hs Hh]. constructor; auto.
  destruct n, l; simpl; constructor. inversion Hh; auto.
Qed.

Lemma nodup_firstn_keys (n : nat) (l : list Fact) :
  NoDup (map key l) -> NoDup (map key (firstn n l)).
Proof.
  intros H. rewrite <- (firstn_skipn n l), map_app in H.
  eapply NoDup_app_remove_r; eauto.
Qed.

Lemma in_firstn_in (n : nat) (l : list Fact) (g : Fact) :
  In g (firstn n l) -> In g l.
Proof.
  intros H. rewrite <- (firstn_skipn n l). apply in_or_app; auto.
Qed.

Lemma nodup_fact_map (existing new : list Fact) :
  NoDup (map key (fact_map existing new)).
Proof.
  unfold fact_map. apply nodup_dict_set_all, nodup_dict_set_all. constructor.
Qed.

Lemma nodup_merge_facts (existing new : list Fact) :
  NoDup (map key (merge_facts existing new)).
Proof.
  unfold merge_facts. apply nodup_firstn_keys.
  eapply Permutation_NoDup; [apply Permutation_map; symmetry; apply perm_sort_desc|].
  apply nodup_fact_map.
Qed.

(** On a list whose keys are unique, rebuilding the dict is the identity. *)
Lemma dict_set_all_fresh (acc l : list Fact) :
  NoDup (map key (acc ++ l)) -> dict_set_all acc l = acc ++ l.
Proof.
  revert acc; induction l as [|f l IH]; simpl; intros acc Hn.
  - now rewrite app_nil_r.
  - assert (Hs : dict_set acc f = acc ++ [f]).
    { clear IH. rewrite map_app in Hn. simpl in Hn.
      apply NoDup_remove_2 in Hn.
      induction acc as [|h acc IHa]; simpl; auto.
      simpl in Hn. destruct (String.eqb (key h) (key f)) eqn:E.
      - apply String.eqb_eq in E. exfalso. apply Hn. left. auto.
      - rewrite IHa; [reflexivity|]. intros Hi. apply Hn. right. exact Hi. }
    rewrite Hs, IH; rewrite <- app_assoc; auto.
Qed.

Lemma in_key_dict_set_all_new (m l : list Fact) (x : Fact) :
  In x l -> In (key x) (map key (dict_set_all m l)).
Proof.
  revert m; induction l as [|h l IH]; simpl; intros m H; [destruct H|].
  destruct H as [H|H]; auto. subst.
  apply in_key_dict_set_all, keys_dict_set. auto.
Qed.

Lemma merge_facts_sorted (existing new : list Fact) :
  sorted_desc (merge_facts existing new).
Proof. apply sorted_firstn, sorted_sort_desc. Qed.

Lemma merge_facts_length (existing new : list Fact) :
  (length (merge_facts existing new) <= MAX_MERGED_FACTS)%nat.
Proof. unfold merge_facts. rewrite length_firstn. lia. Qed.

(** Merging nothing into a list with unique keys, sorted by importance and
    within the cap, returns the list unchanged. *)
Lemma merge_facts_nil_id (l : list Fact) :
  NoDup (map key l) -> sorted_desc l -> (length l <= MAX_MERGED_FACTS)%nat ->
  merge_facts l [] = l.
Proof.
  intros Hn Hs Hl. unfold merge_facts, fact_map.
  change (dict_set_all (dict_set_all [] l) []) with (dict_set_all [] l).
  rewrite (dict_set_all_fresh [] l Hn), app_nil_l.
  rewrite sort_desc_sorted_id by exact Hs.
  apply firstn_all2, Hl.
Qed.

End MergeLemmas.

(* ------------------------------------------------------------------ *)
(** ** Lemmas on stripping *)

Section StripFront.

Variable sp1 : ascii -> bool.
Variable sp2 : ascii -> ascii -> bool.
Variable sp3 : ascii -> ascii -> ascii -> bool.

Local Abbreviation sf := (strip_front sp1 sp2 sp3).

Lemma string_len_ind (P : string -> Prop) :
  (forall s, (forall t, (String.length t < String.length s)%nat -> P t) -> P s) ->
  forall s, P s.
Proof.
  intros H s. remember (String.length s) as n eqn:E. revert s E.
  induction n as [n IH] using lt_wf_ind. intros s ->.
  apply H. intros t Ht. exact (IH _ Ht t eq_refl).
Qed.

(** The loop either stops at once or goes on with a shorter text. *)
Lemma sf_step (s : string) :
  sf s = s \/ exists t, (String.length t < String.length s)%nat /\ sf s = sf t.
Proof.
  destruct s as [|a s1]; [left; reflexivity|].
  cbn [strip_front].
  destruct (sp1 a); [right; exists s1; split; [simpl; lia|reflexivity]|].
  destruct s1 as [|b s2]; [left; reflexivity|].
  destruct (sp2 a b); [right; exists s2; split; [simpl; lia|reflexivity]|].
  destruct s2 as [|c s3]; [left; reflexivity|].
  destruct (sp3 a b c); [right; exists s3; split; [simpl; lia|reflexivity]|].
  left; reflexivity.
Qed.

Lemma sf_idem (s : string) : sf (sf s) = sf s.
Proof.
  induction s as [s IH] using string_len_ind.
  destruct (sf_step s) as [H|[t [Ht H]]].
  - rewrite H. exact H.
  - rewrite H. apply IH, Ht.
Qed.

(** The loop removes a prefix. *)
Lemma sf_split (s : string) : exists p, s = (p ++ sf s)%string.
Proof.
  induction s as [s IH] using string_len_ind.
  destruct s as [|a s1]; [exists EmptyString; reflexivity|].
  cbn [strip_front].
  destruct (sp1 a).
  { destruct (IH s1) as [p Hp]; [simpl; lia|].
    exists (String a p). simpl. now rewrite <- Hp. }
  destruct s1 as [|b s2]; [exists EmptyString; reflexivity|].
  destruct (sp2 a b).
  { destruct (IH s2) as [p Hp]; [simpl; lia|].
    exists (String a (String b p)). simpl. now rewrite <- Hp. }
  destruct s2 as [|c s3]; [exists EmptyString; reflexivity|].
  destruct (sp3 a b c); [|exists EmptyString; reflexivity].
  destruct (IH s3) as [p Hp]; [simpl; lia|].
  exists (String a (String b (String c p))). simpl. now rewrite <- Hp.
Qed.

Lemma sf_length (s : string) : (String.length (sf s) <= String.length s)%nat.
Proof.
  destruct (sf_split s) as [p Hp].
  assert (E : String.length s = (String.length p + String.length (sf s))%nat).
  { rewrite Hp at 1. clear Hp. induction p as [|c p IHp]; simpl; auto. }
  lia.
Qed.

Lemma sf_not_longer (t u : string) :
  (String.length t < String.length u)%nat -> sf t <> u.
Proof. intros H E. pose proof (sf_length t). rewrite E in H0. lia. Qed.

(** A prefix of a text the loop keeps whole is kept whole too. *)
Lemma sf_stable_prefix (a b : string) :
  sf (a ++ b) = (a ++ b)%string -> sf a = a.
Proof.
  intros H. destruct a as [|x a1]; [reflexivity|].
  simpl in H. cbn [strip_front] in H |- *.
  destruct (sp1 x).
  { exfalso. revert H. apply sf_not_longer. simpl. lia. }
  destruct a1 as [|y a2]; [reflexivity|].
  simpl in H. destruct (sp2 x y).
  { exfalso. revert H. apply sf_not_longer. simpl. lia. }
  destruct a2 as [|z a3]; [reflexivity|].
  simpl in H. destruct (sp3 x y z); [|reflexivity].
  exfalso. revert H. apply sf_not_longer. simpl. lia.
Qed.


(** The tests only accept bytes that are not plain. *)
Hypothesis sp1_plain : forall a, is_plain a = true -> sp1 a = false.
Hypothesis sp2_plain : forall a b,
  is_plain a = true \/ is_plain b = true -> sp2 a b = false.
Hypothesis sp3_plain : forall a b c,
  is_plain a = true \/ is_plain b = true \/ is_plain c = true -> sp3 a b c = false.

(** The loop stops at a plain byte. *)
Lemma sf_plain_head (d : ascii) (s : string) :
  is_plain d = true -> sf (String d s) = String d s.
Proof.
  intros Hd. cbn [strip_front]. rewrite sp1_plain by exact Hd.
  destruct s as [|b s2]; [reflexivity|]. rewrite sp2_plain by auto.
  destruct s2 as [|c s3]; [reflexivity|]. rewrite sp3_plain by auto.
  reflexivity.
Qed.

(** The loop never removes a plain byte. *)
Lemma sf_has_plain (s : string) : has_plain s = true -> has_plain (sf s) = true.
Proof.
  induction s as [s IH] using string_len_ind. intros Hs.
  destruct s as [|a s1]; [exact Hs|].
  destruct (is_plain a) eqn:Ea; [rewrite sf_plain_head; assumption|].
  cbn [has_plain] in Hs. rewrite Ea in Hs. cbn [orb] in Hs.
  cbn [strip_front]. destruct (sp1 a); [apply IH; [simpl; lia|exact Hs]|].
  destruct s1 as [|b s2]; [discriminate|].
  destruct (is_plain b) eqn:Eb.
  { rewrite sp2_plain by auto.
    destruct s2 as [|c s3]; [simpl; now rewrite Eb, orb_true_r|].
    rewrite sp3_plain by auto. simpl. now rewrite Eb, orb_true_r. }
  cbn [has_plain] in Hs. rewrite Eb in Hs. cbn [orb] in Hs.
  destruct (sp2 a b); [apply IH; [simpl; lia|exact Hs]|].
  destruct s2 as [|c s3]; [discriminate|].
  destruct (sp3 a b c) eqn:E3; [|simpl; rewrite Ea, Eb; exact Hs].
  cbn [has_plain] in Hs. destruct (is_plain c) eqn:Ec.
  - rewrite sp3_plain in E3 by auto. discriminate.
  - apply IH; [simpl; lia|exact Hs].
Qed.


End StripFront.

Lemma str_app_nil_r (a : string) : (a ++ "")%string = a.
Proof. induction a as [|c a IH]; simpl; congruence. Qed.

Lemma str_app_assoc (a b c : string) : (a ++ (b ++ c))%string = ((a ++ b) ++ c)%string.
Proof. induction a as [|x a IH]; simpl; congruence. Qed.

Lemma rev_string_app (a b : string) :
  rev_string (a ++ b) = (rev_string b ++ rev_string a)%string.
Proof.
  induction a as [|c a IH]; simpl.
  - now rewrite str_app_nil_r.
  - rewrite IH. now rewrite <- str_app_assoc.
Qed.

Lemma rev_string_involutive (s : string) : rev_string (rev_string s) = s.
Proof.
  induction s as [|c s IH]; simpl; auto.
  rewrite rev_string_app, IH. reflexivity.
Qed.



Lemma has_plain_app (a b : string) :
  has_plain (a ++ b) = has_plain a || has_plain b.
Proof. induction a as [|c a IH]; simpl; auto. rewrite IH. apply orb_assoc. Qed.

Lemma has_plain_rev (s : string) : has_plain (rev_string s) = has_plain s.
Proof.
  induction s as [|c s IH]; simpl; auto.
  rewrite has_plain_app, IH. simpl. rewrite orb_false_r. apply orb_comm.
Qed.

Lemma has_plain_truthy (s : string) : has_plain s = true -> truthy s = true.
Proof. destruct s; simpl; auto. Qed.

(** The whitespace encodings are made of bytes that are not plain. *)
Lemma high_not_plain (c : ascii) : (128 <= nat_of_ascii c)%nat -> is_plain c = false.
Proof.
  intros H. unfold is_plain. replace (nat_of_ascii c <? 128)%nat with false; [reflexivity|].
  symmetry. apply Nat.ltb_ge, H.
Qed.

Lemma is_space2_high (a b : ascii) :
  is_space2 a b = true -> (128 <= nat_of_ascii a)%nat /\ (128 <= nat_of_ascii b)%nat.
Proof.
  unfold is_space2. cbv zeta. intros H.
  apply andb_true_iff in H as [Ha Hb]. apply Nat.eqb_eq in Ha.
  apply orb_true_iff in Hb as [Hb|Hb]; apply Nat.eqb_eq in Hb; lia.
Qed.

Lemma is_space3_high (a b c : ascii) :
  is_space3 a b c = true ->
  (128 <= nat_of_ascii a)%nat /\ (128 <= nat_of_ascii b)%nat /\ (128 <= nat_of_ascii c)%nat.
Proof.
  unfold is_space3. cbv zeta. intros H.
  repeat match goal with
         | H : _ || _ = true |- _ => apply orb_true_iff in H as [H|H]
         | H : _ && _ = true |- _ => apply andb_true_iff in H as [? ?]
         | H : (_ =? _)%nat = true |- _ => apply Nat.eqb_eq in H
         | H : (_ <=? _)%nat = true |- _ => apply Nat.leb_le in H
         end; lia.
Qed.

Lemma is_space_plain (a : ascii) : is_plain a = true -> is_space a = false.
Proof.
  unfold is_plain. intros H. apply andb_true_iff in H as [_ H].
  now apply negb_true_iff in H.
Qed.

Lemma is_space2_plain (a b : ascii) :
  is_plain a = true \/ is_plain b = true -> is_space2 a b = false.
Proof.
  intros H. destruct (is_space2 a b) eqn:E; [|reflexivity].
  apply is_space2_high in E as [Ea Eb].
  rewrite (high_not_plain a Ea), (high_not_plain b Eb) in H. now destruct H.
Qed.

Lemma is_space3_plain (a b c : ascii) :
  is_plain a = true \/ is_plain b = true \/ is_plain c = true -> is_space3 a b c = false.
Proof.
  intros H. destruct (is_space3 a b c) eqn:E; [|reflexivity].
  apply is_space3_high in E as [Ea [Eb Ec]].
  rewrite (high_not_plain a Ea), (high_not_plain b Eb), (high_not_plain c Ec) in H.
  now destruct H as [H|[H|H]].
Qed.

Lemma is_space2_plain_rev (a b : ascii) :
  is_plain a = true \/ is_plain b = true -> is_space2 b a = false.
Proof. intros H. apply is_space2_plain. tauto. Qed.

Lemma is_space3_plain_rev (a b c : ascii) :
  is_plain a = true \/ is_plain b = true \/ is_plain c = true -> is_space3 c b a = false.
Proof. intros H. apply is_space3_plain. tauto. Qed.

Lemma lstrip_idem (s : string) : lstrip (lstrip s) = lstrip s.
Proof. apply sf_idem. Qed.

Lemma lstrip_rev_idem (s : string) : lstrip_rev (lstrip_rev s) = lstrip_rev s.
Proof. apply sf_idem. Qed.

Lemma lstrip_plain_head (d : ascii) (s : string) :
  is_plain d = true -> lstrip (String d s) = String d s.
Proof.
  apply sf_plain_head; [apply is_space_plain|apply is_space2_plain|apply is_space3_plain].
Qed.

Lemma lstrip_rev_plain_head (d : ascii) (s : string) :
  is_plain d = true -> lstrip_rev (String d s) = String d s.
Proof.
  apply sf_plain_head;
    [apply is_space_plain|apply is_space2_plain_rev|apply is_space3_plain_rev].
Qed.

(** Both ends of [s.strip()] are kept by a further strip. *)
Lemma strip_ends (s : string) :
  lstrip (strip s) = strip s /\
  lstrip_rev (rev_string (strip s)) = rev_string (strip s).
Proof.
  unfold strip. set (t := lstrip s). set (u := lstrip_rev (rev_string t)).
  rewrite rev_string_involutive. split; [|apply lstrip_rev_idem].
  destruct (sf_split is_space (fun y x => is_space2 x y) (fun z y x => is_space3 x y z)
              (rev_string t)) as [q Hq].
  fold (lstrip_rev (rev_string t)) in Hq. fold u in Hq.
  assert (Ht : t = (rev_string u ++ rev_string q)%string).
  { rewrite <- (rev_string_involutive t), Hq, rev_string_app. reflexivity. }
  apply (sf_stable_prefix _ _ _ (rev_string u) (rev_string q)).
  rewrite <- Ht. apply lstrip_idem.
Qed.

(** A text with no whitespace at either end is its own [strip()]. *)
Lemma strip_fixed (s : string) :
  lstrip s = s -> lstrip_rev (rev_string s) = rev_string s -> strip s = s.
Proof.
  intros H1 H2. unfold strip. rewrite H1, H2. apply rev_string_involutive.
Qed.

Lemma strip_idem (s : string) : strip (strip s) = strip s.
Proof. destruct (strip_ends s). now apply strip_fixed. Qed.

(** [strip()] never removes a plain byte. *)
Lemma has_plain_strip (s : string) : has_plain s = true -> has_plain (strip s) = true.
Proof.
  intros H. unfold strip. rewrite has_plain_rev.
  apply sf_has_plain;
    [apply is_space_plain|apply is_space2_plain_rev|apply is_space3_plain_rev|].
  rewrite has_plain_rev.
  apply sf_has_plain; [apply is_space_plain|apply is_space2_plain|apply is_space3_plain|].
  exact H.
Qed.





(* ------------------------------------------------------------------ *)
(** ** Lemmas on the extractor *)

Section ExtractorLemmas.

Lemma truthy_strip (s : string) : truthy (strip s) = has_nonspace s.
Proof. reflexivity. Qed.

Lemma has_plain_join (sep x : string) (parts : list string) :
  In x parts -> has_plain x = true -> has_plain (join sep parts) = true.
Proof.
  induction parts as [|y parts IH]; simpl; intros Hin Hx; [destruct Hin|].
  destruct parts as [|z parts].
  - destruct Hin as [<-|[]]; auto.
  - rewrite !has_plain_app. destruct Hin as [<-|Hin].
    + now rewrite Hx.
    + rewrite (IH Hin Hx). now rewrite !orb_true_r.
Qed.

(** A caller utterance with text gives the formatted conversation a
    non-whitespace character (at least the [":"] of its line). *)
Lemma format_conversation_nonblank (history : list Message) :
  has_user_content history = true ->
  has_nonspace (format_conversation history) = true.
Proof.
  unfold has_user_content. intros H. apply existsb_exists in H as [msg [Hin Hm]].
  destruct (role msg) as [r|] eqn:Er; [|discriminate].
  apply andb_true_iff in Hm as [_ Hc].
  unfold has_nonspace. apply has_plain_truthy, has_plain_strip.
  unfold format_conversation.
  eapply has_plain_join; [apply in_map, filter_In; split; [exact Hin|]|].
  - destruct (content msg); [cbv in Hc; discriminate|reflexivity].
  - rewrite Er, !has_plain_app. simpl. now rewrite orb_true_r.
Qed.

Lemma has_user_content_intro (history : list Message) (msg : Message) :
  In msg history -> role msg = Some "user" -> has_nonspace (content msg) = true ->
  has_user_content history = true.
Proof.
  intros Hin Hr Hc. apply existsb_exists. exists msg. split; auto.
  rewrite Hr, truthy_strip, Hc. reflexivity.
Qed.

Lemma has_user_content_false (history : list Message) :
  (forall msg, In msg history -> role msg = Some "user" ->
               has_nonspace (content msg) = false) ->
  has_user_content history = false.
Proof.
  intros H. apply Bool.not_true_is_false. intros Hu.
  apply existsb_exists in Hu as [msg [Hin Hm]].
  destruct (role msg) as [r|] eqn:Er; [|discriminate].
  apply andb_true_iff in Hm as [Hr Hc]. apply String.eqb_eq in Hr. subst r.
  rewrite truthy_strip, (H msg Hin Er) in Hc. discriminate.
Qed.

(** When every model answer fails to parse, the loop makes one model call
    per remaining attempt and ends in failure. *)
Lemma attempt_loop_all_fail (generate : Prompt -> option string)
    (parse_and_validate : string -> res (list Fact)) (max_retries : Z) :
  (forall p text, generate p = Some text -> exists e, parse_and_validate text = Err e) ->
  forall fuel attempt last_error safe_text,
    let '(result, calls) :=
      attempt_loop generate parse_and_validate max_retries fuel attempt last_error safe_text in
    length calls = fuel /\ success result = false.
Proof.
  intros Hu fuel. induction fuel as [|fuel IH]; intros attempt last_error t; simpl; auto.
  match goal with
  | |- context [generate ?p] => destruct (generate p) as [text|] eqn:Eg
  end.
  - destruct (truthy text); simpl.
    + destruct (Hu _ _ Eg) as [e He]. rewrite He.
      match goal with
      | |- context [attempt_loop ?g ?pv ?m fuel ?a ?l ?s] =>
          specialize (IH a l s); destruct (attempt_loop g pv m fuel a l s) as [r c]
      end.
      simpl. destruct IH as [H1 H2]. auto.
    + match goal with
      | |- context [attempt_loop ?g ?pv ?m fuel ?a ?l ?s] =>
          specialize (IH a l s); destruct (attempt_loop g pv m fuel a l s) as [r c]
      end.
      simpl. destruct IH as [H1 H2]. auto.
  - match goal with
    | |- context [attempt_loop ?g ?pv ?m fuel ?a ?l ?s] =>
        specialize (IH a l s); destruct (attempt_loop g pv m fuel a l s) as [r c]
    end.
    simpl. destruct IH as [H1 H2]. auto.
Qed.

End ExtractorLemmas.

(* ------------------------------------------------------------------ *)
(** ** Lemmas on the formatter *)

Section FormatterLemmas.


Lemma length_substring0 (n : nat) (s : string) :
  (n <= String.length s)%nat -> String.length (substring 0 n s) = n.
Proof.
  revert n; induction s as [|c s IH]; intros n H; destruct n; simpl in *; auto.
  - lia.
  - rewrite IH; lia.
Qed.

Lemma length_string_app (a b : string) :
  String.length (a ++ b) = (String.length a + String.length b)%nat.
Proof. induction a; simpl; auto. Qed.


End FormatterLemmas.

(* ------------------------------------------------------------------ *)
(** ** Lemmas on the service *)

Section ServiceLemmas.

Context {St LLM : Type}.
Context (get : St -> string -> res (option CallerMemory)).
Context (put : St -> string -> CallerMemory -> res St).
Context (llm_extract : LLM -> list Message -> res ExtractionResult).

Lemma py_or_truthy (phone : string) (b : option string) :
  truthy phone = true -> py_or (Some phone) b = Some phone.
Proof. intros H. unfold py_or. now rewrite H. Qed.

(** [_extract_facts] never raises. *)
Lemma new_facts_of_ok (history : list Message) (llm : option LLM) :
  exists nf, new_facts_of llm_extract history llm = Ok nf.
Proof.
  unfold new_facts_of, extract_facts, try_except.
  destruct history as [|m h], llm as [l|]; eauto.
  destruct (bind _ _); eauto.
Qed.

(** [save] with a truthy phone on an enabled service runs its [try] block. *)
Lemma save_unfold (svc : MemoryService St) (phone : string)
    (history : list Message) (llm : option LLM) (created now : Z) :
  svc_enabled svc = true -> truthy phone = true ->
  save get put llm_extract svc (Some phone) history llm created now =
  try_except (save_body get put llm_extract svc phone history llm created now)
             (fun _ => (false, svc)).
Proof.
  intros He Ht. unfold save. rewrite He, py_or_truthy by exact Ht.
  simpl. now rewrite Ht.
Qed.

Lemma load_unfold (svc : MemoryService St) (phone : string) (now : Z) :
  svc_enabled svc = true -> truthy phone = true ->
  load get svc (Some phone) now =
  try_except (load_body get svc phone now) (fun _ => (None, svc)).
Proof.
  intros He Ht. unfold load. rewrite He, py_or_truthy by exact Ht.
  simpl. now rewrite Ht.
Qed.



Lemma file_lookup_write (fs : Files) (path : string) (d : FileContent) :
  file_lookup (file_write fs path d) path = Some d.
Proof. unfold file_write. simpl. now rewrite String.eqb_refl. Qed.

Lemma file_lookup_write_ok (base phone : string) (m : CallerMemory) :
  local_get base (file_write [] (get_file_path base phone) (Valid m)) phone = Ok (Some m).
Proof. unfold local_get. now rewrite file_lookup_write. Qed.

End ServiceLemmas.

(* ------------------------------------------------------------------ *)
(** ** Claims on [_merge_facts] *)

(** C1 (counterexample): key "k" is present in both [existing] and [new],
    yet the merged list holds no fact with key "k": the 15-fact cap drops
    it, so "exactly one fact with that key" fails. *)
Lemma merge_facts_key_dropped_by_cap :
  In "k" (map key c1_existing) /\ In "k" (map key c1_new) /\
  ~ (exists f, In f (merge_facts c1_existing c1_new) /\ key f = "k").
Proof.
  split; [simpl; auto|]. split; [simpl; auto|].
  intros [f [Hin Hk]].
  assert (E : existsb (fun g => String.eqb (key g) "k") (merge_facts c1_existing c1_new) = false)
    by (vm_compute; reflexivity).
  rewrite <- Bool.not_true_iff_false in E. apply E, existsb_exists.
  exists f. split; auto. rewrite Hk. reflexivity.
Qed.

(** C1 (amended): for a key [k] whose last fact in [new] is [fn], the merged
    list has unique keys, every fact in it with key [k] is [fn] (last write
    wins, no history is kept), and [fn] is present whenever the merged dict
    has at most 15 entries (the cap is the only way to lose it). *)
Theorem merge_facts_last_write_wins (existing new : list Fact) (k : string) (fn : Fact) :
  last_with k new = Some fn ->
  NoDup (map key (merge_facts existing new)) /\
  (forall g, In g (merge_facts existing new) -> key g = k -> g = fn) /\
  ((length (fact_map existing new) <= MAX_MERGED_FACTS)%nat ->
   In fn (merge_facts existing new)).
Proof.
  intros Hl. pose proof (last_with_key _ _ _ Hl) as [Hk Hin].
  assert (Hmap : forall g, In g (fact_map existing new) -> key g = k -> g = fn).
  { intros g Hg Hgk. unfold fact_map in Hg.
    eapply dict_set_all_last; eauto. apply nodup_dict_set_all. constructor. }
  split; [apply nodup_merge_facts|]. split.
  - intros g Hg Hgk. apply Hmap; auto.
    unfold merge_facts in Hg. apply in_firstn_in in Hg.
    eapply Permutation_in; [apply perm_sort_desc|exact Hg].
  - intros Hlen. unfold merge_facts.
    rewrite firstn_all2 by (rewrite (Permutation_length (perm_sort_desc _)); exact Hlen).
    eapply Permutation_in; [symmetry; apply perm_sort_desc|].
    assert (Hkey : In k (map key (fact_map existing new))).
    { rewrite <- Hk. apply in_key_dict_set_all_new, Hin. }
    apply in_map_iff in Hkey as [g [Hgk Hg]].
    rewrite <- (Hmap g Hg Hgk). exact Hg.
Qed.

Lemma merge_facts_last_write_wins_witness :
  last_with "k" c1_new = Some (fct "k" "new" 1) /\
  In (fct "k" "new" 1) (merge_facts c1_existing [fct "k" "new" 1]).
Proof.
  split; [reflexivity|].
  apply (merge_facts_last_write_wins c1_existing [fct "k" "new" 1] "k");
    [reflexivity|vm_compute; lia].
Defined.

(** C7: merging nothing into an already merged list changes nothing:
    [merge(merge(A, B), []) == merge(A, B)]. *)
Theorem merge_facts_empty_idempotent (A B : list Fact) :
  merge_facts (merge_facts A B) [] = merge_facts A B.
Proof.
  apply merge_facts_nil_id;
    [apply nodup_merge_facts|apply merge_facts_sorted|apply merge_facts_length].
Qed.

(* ------------------------------------------------------------------ *)
(** ** Claims on [MemoryService.save] and [MemoryService.load] *)

(** C2: whenever [save] returns [True], it wrote (through the backend's
    [save]) a record whose [call_count] is the stored record's plus one, or
    1 when nothing was stored, and whose [last_call_date] is [now]; this for
    every backend and every extractor, including one that fails or raises. *)
Theorem save_increments_call_count {St LLM : Type}
    (get : St -> string -> res (option CallerMemory))
    (put : St -> string -> CallerMemory -> res St)
    (llm_extract : LLM -> list Message -> res ExtractionResult)
    (svc svc' : MemoryService St) (p : option string)
    (history : list Message) (llm : option LLM) (created now : Z) :
  save get put llm_extract svc p history llm created now = Ok (true, svc') ->
  exists phone m,
    py_or p (svc_phone_number svc) = Some phone /\
    put (svc_store svc) phone m = Ok (svc_store svc') /\
    call_count m = match get (svc_store svc) phone with
                   | Ok (Some r) => call_count r + 1
                   | _ => 1
                   end /\
    last_call_date m = now.
Proof.
  intros H. unfold save in H.
  destruct (svc_enabled svc); simpl in H; [|discriminate].
  destruct (py_or p (svc_phone_number svc)) as [phone|]; [|discriminate].
  destruct (truthy phone); simpl in H; [|discriminate].
  unfold try_except in H.
  destruct (save_body get put llm_extract svc phone history llm created now)
    as [[b s']|e] eqn:Eb; inversion H; subst.
  unfold save_body in Eb.
  destruct (get (svc_store svc) phone) as [found|e] eqn:Eg; simpl in Eb;
    [|discriminate].
  destruct (new_facts_of llm_extract history llm) as [nf|e]; simpl in Eb;
    [|discriminate].
  match type of Eb with
  | bind (put _ _ ?m) _ = _ =>
      destruct (put (svc_store svc) phone m) as [st'|e] eqn:Ep; simpl in Eb;
        [|discriminate]; exists phone, m
  end.
  inversion Eb; subst. simpl. rewrite Eg.
  destruct found; repeat split; auto.
Qed.

Lemma save_increments_call_count_witness :
  exists phone m,
    py_or None (svc_phone_number (local_service fs_old)) = Some phone /\
    local_save CALL_MEMORY fs_old phone m =
      Ok (file_write fs_old (get_file_path CALL_MEMORY phone1)
            (Valid (mkCallerMemory phone1 0 now100 2 [old_fact]))) /\
    call_count m = match local_get CALL_MEMORY fs_old phone with
                   | Ok (Some r) => call_count r + 1
                   | _ => 1
                   end /\
    last_call_date m = now100.
Proof.
  apply (save_increments_call_count (local_get CALL_MEMORY) (local_save CALL_MEMORY)
           raising_llm (local_service fs_old)
           (local_service (file_write fs_old (get_file_path CALL_MEMORY phone1)
                             (Valid (mkCallerMemory phone1 0 now100 2 [old_fact]))))
           None hist_hi (Some tt) now99 now100).
  vm_compute. reflexivity.
Defined.




(** C5: [load] keeps exactly the stored facts with
    [extracted_at >= now - 90 days]; a fact at the boundary is kept, an older
    one is dropped. *)
Theorem load_retention_view {St : Type}
    (get : St -> string -> res (option CallerMemory))
    (svc : MemoryService St) (phone : string) (now : Z) (r : CallerMemory) :
  svc_enabled svc = true -> truthy phone = true ->
  get (svc_store svc) phone = Ok (Some r) ->
  exists view svc', load get svc (Some phone) now = Ok (Some view, svc') /\
    forall f, In f (facts view) <->
              In f (facts r) /\ now - TTL_DAYS * DAY <= extracted_at f.
Proof.
  intros He Ht Hg. rewrite load_unfold by assumption.
  unfold try_except, load_body. rewrite Hg. simpl.
  eexists _, _. split; [reflexivity|]. intros f. simpl.
  unfold filter_expired_facts. simpl.
  rewrite filter_In, Z.leb_le. tauto.
Qed.

Lemma load_retention_view_witness :
  exists view svc',
    load (local_get CALL_MEMORY)
      (local_service (file_write [] (get_file_path CALL_MEMORY phone1) (Valid r_boundary)))
      (Some phone1) now100 = Ok (Some view, svc') /\
    In boundary_fact (facts view) /\ ~ In older_fact (facts view).
Proof.
  destruct (load_retention_view (local_get CALL_MEMORY)
              (local_service (file_write [] (get_file_path CALL_MEMORY phone1) (Valid r_boundary)))
              phone1 now100 r_boundary eq_refl eq_refl
              (file_lookup_write_ok _ _ _))
    as [view [svc' [Hl Hf]]].
  exists view, svc'. split; [exact Hl|]. split.
  - apply Hf. split; [simpl; auto|]. simpl. lia.
  - rewrite Hf. intros [_ Hc]. simpl in Hc. lia.
Defined.

(** C9 (counterexample): the stored record holds a fact 100 days old
    (older than the 90-day window); after a successful [save] the rewritten
    record still holds it. *)
Lemma save_keeps_expired_fact :
  extracted_at old_fact < now100 - TTL_DAYS * DAY /\
  local_get CALL_MEMORY fs_old phone1 = Ok (Some r_old) /\
  match save_local (local_service fs_old) None [] None now99 now100 with
  | Ok (true, svc') =>
      local_get CALL_MEMORY (svc_store svc') phone1 =
        Ok (Some (mkCallerMemory phone1 0 now100 2 [old_fact]))
  | _ => False
  end.
Proof.
  split; [vm_compute; reflexivity|]. split; [vm_compute; reflexivity|].
  vm_compute. reflexivity.
Qed.

(** C9 (amended): [save] applies no retention filter.  The rewritten record's
    facts are [merge(stored facts, new facts)], so a stored fact, expired or
    not, leaves the store only when a new fact with its key replaces it or
    the 15-fact cap drops it.  With no new facts, a stored list with unique
    keys, sorted and within the cap (as [save] writes it) is rewritten
    unchanged, expired facts included. *)
Theorem save_rewrites_without_retention {St LLM : Type}
    (get : St -> string -> res (option CallerMemory))
    (put : St -> string -> CallerMemory -> res St)
    (llm_extract : LLM -> list Message -> res ExtractionResult)
    (svc svc' : MemoryService St) (phone : string)
    (history : list Message) (llm : option LLM) (created now : Z)
    (r : CallerMemory) (nf : list Fact) :
  svc_enabled svc = true -> truthy phone = true ->
  get (svc_store svc) phone = Ok (Some r) ->
  new_facts_of llm_extract history llm = Ok nf ->
  save get put llm_extract svc (Some phone) history llm created now = Ok (true, svc') ->
  exists m, put (svc_store svc) phone m = Ok (svc_store svc') /\
    facts m = merge_facts (facts r) nf /\
    (nf = [] -> NoDup (map key (facts r)) -> sorted_desc (facts r) ->
     (length (facts r) <= MAX_MERGED_FACTS)%nat -> facts m = facts r).
Proof.
  intros He Ht Hg Hn H. rewrite save_unfold in H by assumption.
  unfold try_except, save_body in H. rewrite Hg, Hn in H. simpl in H.
  match type of H with
  | match bind (put _ _ ?m) _ with _ => _ end = _ =>
      destruct (put (svc_store svc) phone m) as [st'|e] eqn:Ep; simpl in H;
        inversion H; subst; exists m
  end.
  simpl. split; [exact Ep|]. split; [reflexivity|].
  intros -> Hk Hs Hl. apply merge_facts_nil_id; assumption.
Qed.

Lemma save_rewrites_without_retention_witness :
  exists m,
    local_save CALL_MEMORY fs_old phone1 m =
      Ok (file_write fs_old (get_file_path CALL_MEMORY phone1)
            (Valid (mkCallerMemory phone1 0 now100 2 [old_fact]))) /\
    facts m = merge_facts [old_fact] [] /\
    ([] = @nil Fact -> NoDup (map key [old_fact]) -> sorted_desc [old_fact] ->
     (length [old_fact] <= MAX_MERGED_FACTS)%nat -> facts m = [old_fact]).
Proof.
  apply (save_rewrites_without_retention (local_get CALL_MEMORY) (local_save CALL_MEMORY)
           raising_llm (local_service fs_old)
           (local_service (file_write fs_old (get_file_path CALL_MEMORY phone1)
                             (Valid (mkCallerMemory phone1 0 now100 2 [old_fact]))))
           phone1 [] None now99 now100 r_old []);
    vm_compute; reflexivity.
Defined.

(* ------------------------------------------------------------------ *)
(** ** Claim on [LocalMemoryStore] *)

(** C10: [_get_file_path] is not injective: "+15551234567" and
    "15551234567" share a file, and so do numbers differing only in spaces,
    hyphens and underscores; a [save] under one and a [get] under the other
    returns the record saved under the first. *)
Theorem local_store_path_collisions (base : string) (fs : Files) (m : CallerMemory) :
  "+15551234567" <> "15551234567" /\
  get_file_path base "+15551234567" = get_file_path base "15551234567" /\
  bind (local_save base fs "+15551234567" m)
       (fun fs' => local_get base fs' "15551234567") = Ok (Some m) /\
  get_file_path base "1 555 123 4567" = get_file_path base "1-555-123-4567" /\
  get_file_path base "1-555-123-4567" = get_file_path base "1_555_123_4567" /\
  bind (local_save base fs "1 555 123 4567" m)
       (fun fs' => local_get base fs' "1_555_123_4567") = Ok (Some m).
Proof.
  assert (E1 : get_file_path base "+15551234567" = get_file_path base "15551234567")
    by reflexivity.
  assert (E2 : get_file_path base "1 555 123 4567" = get_file_path base "1_555_123_4567")
    by reflexivity.
  split; [discriminate|]. split; [exact E1|]. split.
  - cbv [local_save local_save_with local_get bind]. rewrite E1. now rewrite file_lookup_write.
  - split; [reflexivity|]. split; [reflexivity|].
    cbv [local_save local_save_with local_get bind]. rewrite E2. now rewrite file_lookup_write.
Qed.

(* ------------------------------------------------------------------ *)
(** ** Claims on [LLMFactExtractor.extract] *)

(** C4 (counterexample): the caller's only utterance is "   ", which is
    non-empty text, and the model never answers with parsable text; yet
    [extract] calls the model zero times (not [max_retries] = 10 times) and
    reports [success=True], since the code tests [content.strip()]. *)
Lemma extract_blank_caller_text_skips :
  In blank_caller [blank_caller] /\ role blank_caller = Some "user" /\
  content blank_caller <> "" /\
  (forall p text, garbage_generate p = Some text ->
     exists e, json_fails text = Err e) /\
  length (snd (extract garbage_generate json_fails 10 [blank_caller])) = 0%nat /\
  success (fst (extract garbage_generate json_fails 10 [blank_caller])) = true.
Proof.
  split; [left; reflexivity|]. split; [reflexivity|]. split; [discriminate|].
  split; [intros p text _; eexists; reflexivity|].
  split; vm_compute; reflexivity.
Qed.

(** C4 (amended): if some caller ([role "user"]) utterance has a
    non-whitespace character, [max_retries >= 0], and every model answer
    fails to parse, [extract] calls the model exactly [max_retries] times
    and returns [success=False]. *)
Theorem extract_unparsable_exhausts_retries (generate : Prompt -> option string)
    (parse_and_validate : string -> res (list Fact)) (max_retries : Z)
    (history : list Message) (msg : Message) :
  0 <= max_retries ->
  In msg history -> role msg = Some "user" -> has_nonspace (content msg) = true ->
  (forall p text, generate p = Some text -> exists e, parse_and_validate text = Err e) ->
  Z.of_nat (length (snd (extract generate parse_and_validate max_retries history))) = max_retries /\
  success (fst (extract generate parse_and_validate max_retries history)) = false.
Proof.
  intros Hm Hin Hr Hc Hu.
  pose proof (has_user_content_intro history msg Hin Hr Hc) as Hh.
  pose proof (format_conversation_nonblank history Hh) as Hf.
  rewrite <- truthy_strip in Hf.
  unfold extract. destruct history as [|m0 h]; [destruct Hin|].
  rewrite Hh, Hf. simpl negb. cbv iota.
  pose proof (attempt_loop_all_fail generate parse_and_validate max_retries Hu
                (Z.to_nat max_retries) 1 None
                (escape_braces (format_conversation (m0 :: h)))) as Hl.
  destruct (attempt_loop _ _ _ _ _ _ _) as [r c]. simpl.
  destruct Hl as [H1 H2]. split; [rewrite H1; lia|exact H2].
Qed.

Lemma extract_unparsable_exhausts_retries_witness :
  Z.of_nat (length (snd (extract garbage_generate json_fails 10 hist_hi))) = 10 /\
  success (fst (extract garbage_generate json_fails 10 hist_hi)) = false.
Proof.
  apply (extract_unparsable_exhausts_retries garbage_generate json_fails 10 hist_hi
           (mkMessage (Some "user") "Please move my appointment to Friday (3pm)")).
  - lia.
  - right. left. reflexivity.
  - reflexivity.
  - reflexivity.
  - intros p text _. eexists. reflexivity.
Defined.

(** C6: when no caller utterance has text (none has a non-whitespace
    character, so in particular when all are empty), [extract] returns
    [ExtractionResult(success=True)], with no facts and no error, without
    calling the model. *)
Theorem extract_no_caller_text_skips (generate : Prompt -> option string)
    (parse_and_validate : string -> res (list Fact)) (max_retries : Z)
    (history : list Message) :
  (forall msg, In msg history -> role msg = Some "user" ->
               has_nonspace (content msg) = false) ->
  extract generate parse_and_validate max_retries history = (empty_success, []) /\
  success empty_success = true /\ er_facts empty_success = [] /\
  error_message empty_success = None.
Proof.
  intros H. split; [|repeat split].
  unfold extract. destruct history as [|m0 h]; [reflexivity|].
  rewrite (has_user_content_false _ H). reflexivity.
Qed.

Lemma extract_no_caller_text_skips_witness :
  extract garbage_generate json_fails 10
    [mkMessage (Some "assistant") "Hello, how can I help?"; mkMessage (Some "user") ""]
    = (empty_success, []) /\
  success empty_success = true /\ er_facts empty_success = [] /\
  error_message empty_success = None.
Proof.
  apply extract_no_caller_text_skips.
  intros msg Hin Hr. simpl in Hin.
  destruct Hin as [<-|[<-|[]]]; [discriminate|reflexivity].
Defined.

(* ------------------------------------------------------------------ *)
(** ** Claim on [MemoryEnricher.format] *)




(* ------------------------------------------------------------------ *)
(** ** Lemmas on stripping, lowering and replacing *)

Section StringLemmas.






Lemma lower_app (a b : string) : lower (a ++ b) = (lower a ++ lower b)%string.
Proof. induction a as [|c a IH]; simpl; congruence. Qed.




Lemma replace_char_app (a b : ascii) (x y : string) :
  replace_char a b (x ++ y) = (replace_char a b x ++ replace_char a b y)%string.
Proof. induction x as [|c x IH]; simpl; congruence. Qed.

Lemma replace_char_rev (a b : ascii) (s : string) :
  replace_char a b (rev_string s) = rev_string (replace_char a b s).
Proof.
  induction s as [|c s IH]; simpl; auto. now rewrite replace_char_app, IH.
Qed.








Lemma eqb_lower_char_paren (c : ascii) :
  Ascii.eqb (lower_char c) "("%char = Ascii.eqb c "("%char.
Proof. destruct c as [[] [] [] [] [] [] [] []]; reflexivity. Qed.

Lemma prefix_paren (c : ascii) (s : string) :
  String.prefix "(" (String c s) = Ascii.eqb c "("%char.
Proof.
  change (String.prefix "(" (String c s))
    with (if ascii_dec "(" c then String.prefix "" s else false).
  destruct (ascii_dec "(" c) as [<-|H]; [destruct s; reflexivity|].
  symmetry. apply Ascii.eqb_neq. auto.
Qed.

Lemma contains_paren_lower (s : string) :
  contains "(" s = true -> contains "(" (lower s) = true.
Proof.
  induction s as [|c s IH]; [auto|].
  change (contains "(" (String c s)) with (String.prefix "(" (String c s) || contains "(" s).
  change (lower (String c s)) with (String (lower_char c) (lower s)).
  change (contains "(" (String (lower_char c) (lower s)))
    with (String.prefix "(" (String (lower_char c) (lower s)) || contains "(" (lower s)).
  rewrite !prefix_paren, eqb_lower_char_paren.
  destruct (Ascii.eqb c "("%char); simpl; auto.
Qed.

Lemma length_string_app' (a b : string) :
  String.length (a ++ b) = (String.length a + String.length b)%nat.
Proof. induction a; simpl; auto. Qed.

Lemma substring_all (s : string) : substring 0 (String.length s) s = s.
Proof. induction s as [|c s IH]; simpl; congruence. Qed.

Lemma substring_app_left (a b : string) :
  substring 0 (String.length a) (a ++ b) = a.
Proof. induction a as [|c a IH]; simpl; [now destruct b|congruence]. Qed.

Lemma substring_app_right (a b : string) :
  substring (String.length a) (String.length b) (a ++ b) = b.
Proof. induction a as [|c a IH]; simpl; auto. apply substring_all. Qed.

Lemma length_replace_with (a : ascii) (b s : string) :
  String.length b = 2%nat ->
  String.length (replace_with a b s) = (String.length s + count_char a s)%nat.
Proof.
  intros Hb. induction s as [|c s IH]; simpl; auto.
  rewrite length_string_app', IH.
  destruct (Ascii.eqb c a); simpl; lia.
Qed.

Lemma count_replace_with_other (a d : ascii) (b s : string) :
  count_char d b = O -> Ascii.eqb a d = false ->
  count_char d (replace_with a b s) = count_char d s.
Proof.
  intros Hb Ha. induction s as [|c s IH]; simpl; auto.
  assert (Happ : forall x y, count_char d (x ++ y) = (count_char d x + count_char d y)%nat).
  { induction x as [|e x IHx]; intros y; simpl; auto. rewrite IHx. lia. }
  rewrite Happ, IH. destruct (Ascii.eqb c a) eqn:E.
  - apply Ascii.eqb_eq in E. subst c. rewrite Hb, Ha. reflexivity.
  - simpl. lia.
Qed.

End StringLemmas.

(* ------------------------------------------------------------------ *)
(** ** More lemmas on the extractor, the store and the formatter *)

Section MoreLemmas.

(** Every prompt built in the retry loop interpolates [safe_text]. *)
Lemma attempt_loop_prompt_text (generate : Prompt -> option string)
    (parse_and_validate : string -> res (list Fact)) (max_retries : Z) :
  forall fuel attempt last_error safe_text p,
    In p (snd (attempt_loop generate parse_and_validate max_retries fuel attempt
                 last_error safe_text)) ->
    prompt_conversation_text p = safe_text.
Proof.
  induction fuel as [|fuel IH]; intros attempt last_error t p; simpl; [intros []|].
  set (q := build_extraction_prompt t _ _ _).
  assert (Hq : prompt_conversation_text q = t).
  { subst q. unfold build_extraction_prompt.
    destruct (attempt =? max_retries); [reflexivity|].
    destruct (1 <? attempt), (error_arg last_error) as [e|]; try reflexivity.
    destruct (truthy e); reflexivity. }
  clearbody q.
  destruct (generate q) as [text|].
  - destruct (truthy text); simpl.
    + destruct (parse_and_validate text) as [fs|e].
      * simpl. intros [<-|[]]. exact Hq.
      * destruct (attempt_loop _ _ _ fuel _ _ t) as [r c] eqn:E.
        simpl. intros [<-|Hp]; [exact Hq|].
        eapply IH. rewrite E. exact Hp.
    + destruct (attempt_loop _ _ _ fuel _ _ t) as [r c] eqn:E.
      simpl. intros [<-|Hp]; [exact Hq|].
      eapply IH. rewrite E. exact Hp.
  - destruct (attempt_loop _ _ _ fuel _ _ t) as [r c] eqn:E.
    simpl. intros [<-|Hp]; [exact Hq|].
    eapply IH. rewrite E. exact Hp.
Qed.

Lemma error_text_truthy (e : PyException) : truthy (error_text e) = true.
Proof.
  destruct e as [cls msg]. unfold error_text.
  destruct (String.eqb cls "JSONDecodeError"); [reflexivity|].
  destruct (String.eqb cls "ValidationError"); reflexivity.
Qed.

(** The attempts after the first one, when every answer fails to parse with
    the same error: retry prompts, then the strict prompt on the last one. *)
Lemma attempt_loop_tail (generate : Prompt -> option string)
    (parse_and_validate : string -> res (list Fact)) (max_retries : Z) (e : PyException) :
  (forall p, exists text, generate p = Some text /\ truthy text = true) ->
  (forall text, parse_and_validate text = Err e) ->
  forall fuel attempt t,
    (1 <= fuel)%nat -> 2 <= attempt -> attempt + Z.of_nat fuel - 1 = max_retries ->
    attempt_loop generate parse_and_validate max_retries fuel attempt
      (Some (error_text e)) t =
    (mkExtractionResult [] None false (Some (error_text e)),
     repeat (RetryPrompt (error_text e) t) (fuel - 1) ++ [StrictRetryPrompt t]).
Proof.
  intros Hg Hp. induction fuel as [|fuel IH]; intros attempt t H1 H2 H3; [lia|].
  cbn [attempt_loop].
  unfold error_arg. rewrite error_text_truthy.
  assert (Hr : (1 <? attempt) = true) by (apply Z.ltb_lt; lia).
  rewrite Hr.
  destruct fuel as [|fuel].
  - assert (Hf : (attempt =? max_retries) = true) by (apply Z.eqb_eq; lia).
    rewrite Hf. simpl build_extraction_prompt.
    destruct (Hg (StrictRetryPrompt t)) as [text [Eg Et]]. rewrite Eg, Et, Hp.
    reflexivity.
  - assert (Hf : (attempt =? max_retries) = false) by (apply Z.eqb_neq; lia).
    rewrite Hf. unfold build_extraction_prompt. rewrite error_text_truthy.
    destruct (Hg (RetryPrompt (error_text e) t)) as [text [Eg Et]].
    rewrite Eg, Et. simpl negb. cbv iota. rewrite Hp.
    rewrite IH by lia. simpl. rewrite Nat.sub_0_r. reflexivity.
Qed.

Lemma file_lookup_remove_same (fs : Files) (path : string) :
  file_lookup (file_remove fs path) path = None.
Proof.
  induction fs as [|[q m] fs IH]; simpl; auto.
  destruct (String.eqb q path) eqn:E; simpl; auto. rewrite E. exact IH.
Qed.

Lemma file_lookup_remove_other (fs : Files) (path path' : string) :
  path' <> path -> file_lookup (file_remove fs path) path' = file_lookup fs path'.
Proof.
  intros Hne. induction fs as [|[q m] fs IH]; simpl; auto.
  destruct (String.eqb q path) eqn:E; simpl.
  - apply String.eqb_eq in E. subst q.
    destruct (String.eqb path path') eqn:E2; auto.
    apply String.eqb_eq in E2. congruence.
  - destruct (String.eqb q path'); auto.
Qed.

(** [dict_set] only ever adds the fact it is given. *)
Lemma in_dict_set_all (m l : list Fact) (g : Fact) :
  In g (dict_set_all m l) -> In g m \/ In g l.
Proof.
  revert m; induction l as [|f l IH]; simpl; intros m H; auto.
  destruct (IH _ H) as [H'|H']; auto.
  destruct (in_dict_set _ _ _ H') as [->|H'']; auto.
Qed.

Lemma in_skipn_in (n : nat) (l : list Fact) (g : Fact) :
  In g (skipn n l) -> In g l.
Proof.
  intros H. rewrite <- (firstn_skipn n l). apply in_or_app; auto.
Qed.

Lemma sorted_split_le (l : list Fact) (n : nat) (f g : Fact) :
  sorted_desc l -> In g (firstn n l) -> In f (skipn n l) -> importance f <= importance g.
Proof.
  unfold sorted_desc. intros Hs.
  apply Sorted_StronglySorted in Hs; [|intros x y z; lia].
  revert n; induction Hs as [|h l Hs IH Hall]; intros n Hg Hf.
  - destruct n; simpl in *; contradiction.
  - destruct n as [|n]; simpl in Hg; [contradiction|].
    simpl in Hf. destruct Hg as [<-|Hg].
    + apply in_skipn_in in Hf. apply Forall_forall with (x := f) in Hall; auto.
    + eapply IH; eauto.
Qed.

(** The five buckets of [format]: every key falls in exactly one. *)
Lemma bucket_cases (k : string) :
  let fk := mkFact k "" 0 0 None in
  let s := str_in k ["call_summary"; "conversation_summary"] in
  let a := str_in k ["next_action"; "follow_up_needed"; "incomplete_task"] in
  let p := str_in k ["user_name"; "contact_number"; "email"] in
  let ap := contains "appointment" k || contains "schedule" k in
  let o := negb (str_in k ["call_summary"; "conversation_summary"; "next_action";
                           "follow_up_needed"; "incomplete_task"; "user_name";
                           "contact_number"; "email"])
           && negb (contains "appointment" k) && negb (contains "schedule" k) in
  (s, a, p, ap, o) = (true, false, false, false, false) \/
  (s, a, p, ap, o) = (false, true, false, false, false) \/
  (s, a, p, ap, o) = (false, false, true, false, false) \/
  (s, a, p, ap, o) = (false, false, false, true, false) \/
  (s, a, p, ap, o) = (false, false, false, false, true).
Proof.
  intros fk s a p ap o. subst fk s a p ap o.
  unfold str_in.
  destruct (existsb (String.eqb k) ["call_summary"; "conversation_summary"]) eqn:Es.
  { apply existsb_exists in Es as [x [Hx Ex]]. apply String.eqb_eq in Ex. subst x.
    destruct Hx as [<-|[<-|[]]]; vm_compute; auto. }
  destruct (existsb (String.eqb k) ["next_action"; "follow_up_needed"; "incomplete_task"]) eqn:Ea.
  { apply existsb_exists in Ea as [x [Hx Ex]]. apply String.eqb_eq in Ex. subst x.
    destruct Hx as [<-|[<-|[<-|[]]]]; vm_compute; auto. }
  destruct (existsb (String.eqb k) ["user_name"; "contact_number"; "email"]) eqn:Ep.
  { apply existsb_exists in Ep as [x [Hx Ex]]. apply String.eqb_eq in Ex. subst x.
    destruct Hx as [<-|[<-|[<-|[]]]]; vm_compute; auto. }
  assert (E8 : existsb (String.eqb k)
                 ["call_summary"; "conversation_summary"; "next_action";
                  "follow_up_needed"; "incomplete_task"; "user_name";
                  "contact_number"; "email"] = false).
  { change ["call_summary"; "conversation_summary"; "next_action";
            "follow_up_needed"; "incomplete_task"; "user_name";
            "contact_number"; "email"]
      with (["call_summary"; "conversation_summary"] ++
            ["next_action"; "follow_up_needed"; "incomplete_task"] ++
            ["user_name"; "contact_number"; "email"]).
    rewrite !existsb_app, Es, Ea, Ep. reflexivity. }
  rewrite E8. simpl.
  destruct (contains "appointment" k), (contains "schedule" k); simpl; auto.
Qed.

Lemma perm_cons_mid (l1 l2 l : list Fact) (f : Fact) :
  Permutation (l1 ++ l2) l -> Permutation (l1 ++ f :: l2) (f :: l).
Proof.
  intros H. eapply perm_trans; [symmetry; apply Permutation_middle|].
  apply perm_skip, H.
Qed.

End MoreLemmas.

(* ------------------------------------------------------------------ *)
(** ** Further properties of the extractor *)

(** X1. [_has_sufficient_context] accepts a value exactly when its stripped
    form has at least 8 characters and either at least 15 characters or one
    of the context indicators (in lower case); the separate test for "("
    and ")" never changes the outcome. *)
Theorem has_sufficient_context_simplified (ef : ExtractedFact) :
  has_sufficient_context ef =
  (8 <=? py_len (strip (ef_value ef)))%nat &&
  ((15 <=? py_len (strip (ef_value ef)))%nat ||
   existsb (fun indicator => contains indicator (lower (strip (ef_value ef))))
     context_indicators).
Proof.
  unfold has_sufficient_context.
  generalize (strip (ef_value ef)) as v. intros v.
  destruct (py_len v <? 8)%nat eqn:E8.
  - apply Nat.ltb_lt in E8.
    assert (H : (8 <=? py_len v)%nat = false) by (apply Nat.leb_gt; lia).
    now rewrite H.
  - apply Nat.ltb_ge in E8.
    assert (H : (8 <=? py_len v)%nat = true) by (apply Nat.leb_le; lia).
    rewrite H. cbn [andb].
    destruct (contains "(" v && contains ")" v) eqn:Ep.
    + apply andb_true_iff in Ep as [Ep _]. cbn [existsb context_indicators].
      rewrite (contains_paren_lower v Ep). cbn [orb]. symmetry. apply orb_true_r.
    + destruct (15 <=? py_len v)%nat; reflexivity.
Qed.

(** X2. The text [_clean_response_text] returns never starts or ends with
    whitespace. *)
Theorem clean_response_text_stripped (text : string) :
  strip (clean_response_text text) = clean_response_text text.
Proof.
  unfold clean_response_text. cbv zeta.
  match goal with
  | |- strip (fold_left ?f _ _) = _ =>
      assert (Hinv : forall l t, strip t = t -> strip (fold_left f l t) = fold_left f l t)
  end.
  { intros l. induction l as [|p l IH]; simpl; intros t Ht; auto.
    apply IH. destruct (startswith _ _); [apply strip_idem|exact Ht]. }
  apply Hinv, strip_idem.
Qed.

(** X3. A JSON object or array wrapped in a ```json fence comes back as its
    body, stripped. *)
Theorem clean_response_text_json_fence (body rest : string) (c : ascii) :
  strip body = String c rest -> (c = "{"%char \/ c = "["%char) ->
  clean_response_text ("```json" ++ body ++ "```") = strip body.
Proof.
  intros Hs Hc.
  set (T := ("```json" ++ body ++ "```")%string).
  assert (HT : strip T = T).
  { apply strip_fixed; [reflexivity|]. subst T.
    rewrite !rev_string_app. reflexivity. }
  assert (Hstart : startswith "```json" T = true).
  { unfold startswith. apply prefix_correct. apply substring_app_left. }
  assert (Hdrop : drop_front 7 T = (body ++ "```")%string).
  { unfold drop_front. subst T. rewrite length_string_app'.
    change (String.length "```json") with 7%nat.
    replace (7 + String.length (body ++ "```") - 7)%nat
      with (String.length (body ++ "```")) by lia.
    simpl substring. apply substring_all. }
  assert (Hend : endswith "```" (body ++ "```") = true).
  { unfold endswith. rewrite length_string_app'.
    replace (String.length body + String.length "```" - String.length "```")%nat
      with (String.length body) by lia.
    rewrite (substring_app_right body "```"), String.eqb_refl.
    apply andb_true_iff. split; [apply Nat.leb_le; lia|reflexivity]. }
  assert (Hback : drop_back 3 (body ++ "```") = body).
  { unfold drop_back. rewrite length_string_app'.
    change (String.length "```") with 3%nat.
    replace (String.length body + 3 - 3)%nat with (String.length body) by lia.
    apply substring_app_left. }
  unfold clean_response_text. cbv zeta.
  rewrite HT, Hstart, Hdrop, Hend, Hback, Hs.
  destruct Hc as [-> | ->]; reflexivity.
Qed.


(** X5. Every fact the filter of [_parse_and_validate] keeps is built from a
    validated fact at or above [min_importance] with enough context, with
    source "llm"; at most [max_facts] facts are kept. *)
Theorem filter_validated_facts_sound (min_importance max_facts now : Z)
    (validated : list ExtractedFact) :
  0 <= max_facts ->
  (length (filter_validated_facts min_importance max_facts now validated)
     <= Z.to_nat max_facts)%nat /\
  (forall f, In f (filter_validated_facts min_importance max_facts now validated) ->
   exists ef, In ef validated /\
     f = mkFact (ef_key ef) (ef_value ef) (ef_importance ef) now (Some "llm") /\
     min_importance <= ef_importance ef /\ has_sufficient_context ef = true).
Proof.
  intros Hm. unfold filter_validated_facts, take_py.
  assert (E : (max_facts <? 0) = false) by (apply Z.ltb_ge; lia). rewrite E.
  split.
  - rewrite length_firstn. lia.
  - intros f Hf. apply in_firstn_in in Hf.
    apply in_map_iff in Hf as [ef [<- Hin]].
    apply filter_In in Hin as [Hin Hp]. apply andb_true_iff in Hp as [Hi Hc].
    exists ef. repeat split; auto. apply Z.leb_le, Hi.
Qed.

(** X11. When every model answer is non-empty but fails to parse with the
    same error, [extract] sends the plain extraction prompt, then retry
    prompts carrying that error, and the strict prompt on the last attempt
    (only the strict prompt when [max_retries] is 1), and fails with that
    error as its message. *)
Theorem extract_retry_prompt_sequence (generate : Prompt -> option string)
    (parse_and_validate : string -> res (list Fact)) (max_retries : Z)
    (e : PyException) (history : list Message) :
  1 <= max_retries ->
  has_user_content history = true ->
  (forall p, exists text, generate p = Some text /\ truthy text = true) ->
  (forall text, parse_and_validate text = Err e) ->
  extract generate parse_and_validate max_retries history =
    (mkExtractionResult [] None false (Some (error_text e)),
     let t := escape_braces (format_conversation history) in
     if max_retries =? 1 then [StrictRetryPrompt t]
     else ExtractionPrompt t :: repeat (RetryPrompt (error_text e) t)
                                  (Z.to_nat max_retries - 2) ++ [StrictRetryPrompt t]).
Proof.
  intros Hn Hu Hg Hp. unfold extract.
  assert (Hne : history <> []) by (intros ->; discriminate).
  assert (Hb : truthy (strip (format_conversation history)) = true).
  { rewrite truthy_strip. apply format_conversation_nonblank, Hu. }
  destruct history as [|msg h]; [congruence|].
  rewrite Hu, Hb. cbv zeta. cbn [negb].
  set (t := escape_braces (format_conversation (msg :: h))). clearbody t.
  destruct (Z.eq_dec max_retries 1) as [->|Hn2].
  - simpl. destruct (Hg (StrictRetryPrompt t)) as [text [Eg Et]].
    rewrite Eg, Et, Hp. reflexivity.
  - assert (Hk : Z.to_nat max_retries = S (S (Z.to_nat max_retries - 2))) by lia.
    assert (Hmz : max_retries = Z.of_nat (S (S (Z.to_nat max_retries - 2)))) by lia.
    set (k := (Z.to_nat max_retries - 2)%nat) in *. clearbody k.
    rewrite Hk. remember (S k) as fk eqn:Efk. cbn [attempt_loop].
    assert (E1 : (1 =? max_retries) = false) by (apply Z.eqb_neq; lia).
    rewrite E1.
    assert (Ebp : build_extraction_prompt t (1 <? 1) (error_arg None) false = ExtractionPrompt t)
      by reflexivity.
    rewrite Ebp.
    destruct (Hg (ExtractionPrompt t)) as [text [Eg Et]].
    rewrite Eg, Et, Hp. cbn [negb].
    rewrite (attempt_loop_tail generate parse_and_validate max_retries e Hg Hp fk (1 + 1) t)
      by lia.
    subst fk.
    assert (E2 : (max_retries =? 1) = false) by (apply Z.eqb_neq; lia).
    rewrite E2. simpl. rewrite Nat.sub_0_r. reflexivity.
Qed.

(** X12. Every prompt [extract] sends interpolates the brace-escaped
    conversation text; since [str.format] inserts it verbatim, the model
    receives each "{" and "}" of the conversation doubled, the text being
    one character longer per brace. *)
Theorem extract_prompts_double_braces (generate : Prompt -> option string)
    (parse_and_validate : string -> res (list Fact)) (max_retries : Z)
    (history : list Message) :
  (forall p, In p (snd (extract generate parse_and_validate max_retries history)) ->
   prompt_conversation_text p = escape_braces (format_conversation history)) /\
  String.length (escape_braces (format_conversation history)) =
    (String.length (format_conversation history) +
     count_char "{" (format_conversation history) +
     count_char "}" (format_conversation history))%nat.
Proof.
  split.
  - intros p. unfold extract.
    destruct history as [|msg h]; [simpl; intros []|].
    destruct (negb (has_user_content (msg :: h))); [simpl; intros []|].
    cbv zeta.
    destruct (negb (truthy (strip (format_conversation (msg :: h))))); [simpl; intros []|].
    apply attempt_loop_prompt_text.
  - unfold escape_braces.
    rewrite (length_replace_with "}" "}}" _ eq_refl).
    rewrite (length_replace_with "{" "{{" _ eq_refl).
    rewrite (count_replace_with_other "{" "}" "{{" _ eq_refl eq_refl).
    lia.
Qed.

(* ------------------------------------------------------------------ *)
(** ** Further properties of the merge and the formatter *)

(** X15. [_merge_facts] returns its facts sorted by importance, each taken
    from [existing] or [new]; it keeps min(15, number of distinct keys)
    facts, and a fact of the merged map that it leaves out is no more
    important than any fact it keeps. *)
Theorem merge_facts_keeps_most_important (existing new : list Fact) :
  sorted_desc (merge_facts existing new) /\
  length (merge_facts existing new) =
    Nat.min MAX_MERGED_FACTS (length (fact_map existing new)) /\
  (forall f, In f (merge_facts existing new) -> In f existing \/ In f new) /\
  (forall f g, In f (fact_map existing new) -> not (In f (merge_facts existing new)) ->
   In g (merge_facts existing new) -> importance f <= importance g).
Proof.
  split; [apply merge_facts_sorted|]. split.
  { unfold merge_facts. rewrite length_firstn, (Permutation_length (perm_sort_desc _)).
    reflexivity. }
  split.
  - intros f Hf. unfold merge_facts in Hf. apply in_firstn_in in Hf.
    apply (Permutation_in _ (perm_sort_desc _)) in Hf.
    unfold fact_map in Hf. destruct (in_dict_set_all _ _ _ Hf) as [H|H]; auto.
    destruct (in_dict_set_all _ _ _ H) as [[]|H']; auto.
  - intros f g Hf Hn Hg. unfold merge_facts in *.
    apply (Permutation_in _ (Permutation_sym (perm_sort_desc _))) in Hf.
    rewrite <- (firstn_skipn MAX_MERGED_FACTS (sort_desc (fact_map existing new))) in Hf.
    apply in_app_or in Hf as [Hf|Hf]; [contradiction|].
    eapply sorted_split_le; eauto. apply sorted_sort_desc.
Qed.

(** X14. The five buckets [format] sorts the top facts into (summary, next
    actions, personal info, appointments, other) split them exactly: each
    top fact lands in exactly one bucket, so together the buckets are a
    permutation of the top facts. *)
Theorem format_buckets_partition (top : list Fact) :
  Permutation (summary_facts top ++ action_facts top ++ personal_facts top ++
               appointment_facts top ++ other_facts top) top.
Proof.
  unfold summary_facts, action_facts, personal_facts, appointment_facts, other_facts.
  induction top as [|f top IH]; [constructor|].
  cbn [filter].
  pose proof (bucket_cases (key f)) as H. cbv zeta in H.
  destruct H as [H|[H|[H|[H|H]]]];
    apply pair_equal_spec in H as [H H5]; apply pair_equal_spec in H as [H H4];
    apply pair_equal_spec in H as [H H3]; apply pair_equal_spec in H as [H1 H2];
    rewrite H1, H2, H3, H4, H5; cbn [app].
  - apply perm_skip, IH.
  - apply perm_cons_mid, IH.
  - rewrite app_assoc. apply perm_cons_mid. rewrite <- app_assoc. exact IH.
  - rewrite app_assoc, app_assoc. apply perm_cons_mid. rewrite <- !app_assoc. exact IH.
  - rewrite app_assoc, app_assoc, app_assoc. apply perm_cons_mid.
    rewrite <- !app_assoc. exact IH.
Qed.

(** X6. [enhance_instructions] returns the base instructions unchanged
    exactly when there is no memory, its call count is below 1, or it holds
    no facts. *)
Theorem enhance_instructions_unchanged_iff (strftime : Z -> string)
    (memory_aware_prompt base : string) (memory : option CallerMemory) :
  enhance_instructions strftime memory_aware_prompt base memory = base <->
  match memory with
  | None => True
  | Some m => call_count m < 1 \/ facts m = []
  end.
Proof.
  assert (Happ : forall a b, (a ++ b)%string = a -> b = EmptyString).
  { intros a b H. apply (f_equal String.length) in H.
    rewrite length_string_app' in H. destruct b; [reflexivity|simpl in H; lia]. }
  destruct memory as [m|]; [|split; reflexivity].
  unfold enhance_instructions, format.
  destruct (call_count m <? 1) eqn:E.
  - apply Z.ltb_lt in E. split; [intros _; left; exact E|reflexivity].
  - apply Z.ltb_ge in E. destruct (facts m) as [|f l] eqn:Ef.
    + split; [intros _; right; reflexivity|reflexivity].
    + unfold format_sections. cbn [full_context app join truthy negb].
      split.
      * intros H. apply Happ in H. discriminate.
      * intros [H|H]; [lia|discriminate].
Qed.

(* ------------------------------------------------------------------ *)
(** ** Further properties of the service and the local store *)

(** X7. A [load] that finds no record (or fails) leaves the service as it
    was: after a successful [load] of one caller, a [load] that finds
    nothing keeps that caller's memory in place, and
    [format_memory_for_prompt] without an argument still renders it. *)
Theorem load_miss_keeps_loaded_memory {St : Type}
    (get : St -> string -> res (option CallerMemory)) (strftime : Z -> string)
    (svc svc1 svc2 : MemoryService St) (pa pb : option string) (t1 t2 : Z)
    (m : CallerMemory) :
  load get svc pa t1 = Ok (Some m, svc1) ->
  load get svc1 pb t2 = Ok (None, svc2) ->
  svc2 = svc1 /\ svc_loaded_memory svc2 = Some m /\
  svc_format_memory_for_prompt strftime svc2 None = full_context (format strftime (Some m)).
Proof.
  intros H1 H2.
  assert (L1 : svc_loaded_memory svc1 = Some m).
  { unfold load in H1. destruct (svc_enabled svc); [|discriminate].
    destruct (py_or pa (svc_phone_number svc)) as [ph|]; [|discriminate].
    destruct (truthy ph); [|discriminate]. cbn [negb] in H1.
    unfold try_except, load_body, bind in H1.
    destruct (get (svc_store svc) ph) as [[r|]|err]; inversion H1; reflexivity. }
  assert (L2 : svc2 = svc1).
  { unfold load in H2. destruct (svc_enabled svc1); [|inversion H2; reflexivity].
    destruct (py_or pb (svc_phone_number svc1)) as [ph|]; [|inversion H2; reflexivity].
    destruct (truthy ph); [|inversion H2; reflexivity]. cbn [negb] in H2.
    unfold try_except, load_body, bind in H2.
    destruct (get (svc_store svc1) ph) as [[r|]|err]; inversion H2; reflexivity. }
  subst svc2. split; [reflexivity|]. split; [exact L1|].
  unfold svc_format_memory_for_prompt, memory_or_loaded. now rewrite L1.
Qed.

(** X8. [update_phone_number] sets the number at most once: after any
    sequence of updates the number is the original one when it was set
    (truthy), otherwise the first non-empty update, or the original value
    when there is none; the other fields never change. *)
Theorem update_phone_number_first_wins {St : Type} (svc : MemoryService St)
    (updates : list string) :
  svc_phone_number (fold_left update_phone_number updates svc) =
    (if opt_truthy (svc_phone_number svc) then svc_phone_number svc
     else match first_truthy updates with
          | Some p => Some p
          | None => svc_phone_number svc
          end) /\
  svc_enabled (fold_left update_phone_number updates svc) = svc_enabled svc /\
  svc_loaded_memory (fold_left update_phone_number updates svc) = svc_loaded_memory svc /\
  svc_store (fold_left update_phone_number updates svc) = svc_store svc.
Proof.
  revert svc. induction updates as [|u updates IH]; intros svc; simpl.
  - destruct (opt_truthy (svc_phone_number svc)); auto.
  - assert (Eup : update_phone_number svc u =
                  if truthy u && negb (opt_truthy (svc_phone_number svc))
                  then mkMemoryService (svc_enabled svc) (Some u)
                         (svc_loaded_memory svc) (svc_store svc)
                  else svc) by reflexivity.
    rewrite Eup.
    destruct (truthy u) eqn:Eu; destruct (opt_truthy (svc_phone_number svc)) eqn:Eo;
      cbn [andb negb].
    2: { destruct (IH (mkMemoryService (svc_enabled svc) (Some u)
                         (svc_loaded_memory svc) (svc_store svc))) as [H1 [H2 [H3 H4]]].
         cbn [opt_truthy svc_phone_number svc_enabled svc_loaded_memory svc_store]
           in H1, H2, H3, H4.
         rewrite Eu in H1. rewrite H1, H2, H3, H4. repeat split. }
    all: destruct (IH svc) as [H1 [H2 [H3 H4]]]; rewrite H1, H2, H3, H4, Eo;
      repeat split.
Qed.

(** X9. On the local store, [get] finds a record only where [exists] is
    true, but a file whose read fails exists with no record.  [delete]
    reports whether the file existed when [os.remove] succeeds; afterwards
    neither [exists] nor [get] finds the record, and files at other paths
    are untouched.  When [os.remove] raises, [delete] returns [False] and
    leaves the folder as it was.  A [save] whose write succeeds makes [get]
    return the record; one whose [open] raises leaves the folder as it was;
    one whose [json.dump] raises leaves a file that [exists] finds and
    [get] reads as [None]. *)
Theorem local_store_delete_exists (base : string) (fs : Files) (phone other : string)
    (m : CallerMemory) :
  ((exists r, local_get base fs phone = Ok (Some r)) -> local_exists base fs phone = true) /\
  (local_exists base fs phone = false -> local_get base fs phone = Ok None) /\
  fst (local_delete base fs phone) = local_exists base fs phone /\
  local_exists base (snd (local_delete base fs phone)) phone = false /\
  local_get base (snd (local_delete base fs phone)) phone = Ok None /\
  (get_file_path base other <> get_file_path base phone ->
   local_get base (snd (local_delete base fs phone)) other = local_get base fs other) /\
  local_delete_with false base fs phone = (false, fs) /\
  (forall fs', local_save base fs phone m = Ok fs' ->
     local_exists base fs' phone = true /\ local_get base fs' phone = Ok (Some m)) /\
  local_save_with OpenFailed base fs phone m = Ok fs /\
  (forall fs', local_save_with DumpFailed base fs phone m = Ok fs' ->
     local_exists base fs' phone = true /\ local_get base fs' phone = Ok None).
Proof.
  unfold local_exists, local_delete, local_delete_with, local_get, local_save,
    local_save_with, file_exists.
  set (p := get_file_path base phone).
  split; [|split; [|split; [|split; [|split; [|split; [|split; [|split; [|split]]]]]]]].
  - intros [r H]. destruct (file_lookup fs p) as [[]|]; congruence.
  - destruct (file_lookup fs p) as [[]|]; congruence.
  - destruct (file_lookup fs p); reflexivity.
  - destruct (file_lookup fs p) eqn:E; simpl; [|rewrite E; reflexivity].
    rewrite file_lookup_remove_same. reflexivity.
  - destruct (file_lookup fs p) eqn:E; simpl; [|rewrite E; reflexivity].
    rewrite file_lookup_remove_same. reflexivity.
  - intros Hne. destruct (file_lookup fs p); simpl; [|reflexivity].
    rewrite file_lookup_remove_other by exact Hne. reflexivity.
  - destruct (file_lookup fs p); reflexivity.
  - intros fs' H. inversion H. rewrite file_lookup_write. split; reflexivity.
  - reflexivity.
  - intros fs' H. inversion H. rewrite file_lookup_write. split; reflexivity.
Qed.

(** X13. On the local store, when the file write succeeds, a successful
    [save] followed by a [load] of the same number returns the record just
    written, seen through the retention filter: the first call date of the
    record [get] returned before (or, when it returned [None], the clock
    reading of the new [CallerMemory]), the save time as last call date, the
    previous count plus one, and the merged facts filtered at load time;
    [load] also keeps it as the loaded memory. *)
Theorem local_save_then_load {LLM : Type}
    (llm_extract : LLM -> list Message -> res ExtractionResult)
    (base : string) (svc svc' : MemoryService Files) (phone : string)
    (history : list Message) (llm : option LLM) (created t1 t2 : Z)
    (prev : option CallerMemory) :
  truthy phone = true ->
  local_get base (svc_store svc) phone = Ok prev ->
  save (local_get base) (local_save base) llm_extract svc (Some phone) history llm created t1
    = Ok (true, svc') ->
  exists nf m,
    new_facts_of llm_extract history llm = Ok nf /\
    load (local_get base) svc' (Some phone) t2 =
      Ok (Some m, mkMemoryService (svc_enabled svc') (svc_phone_number svc') (Some m)
                    (svc_store svc')) /\
    phone_number m = phone /\
    first_call_date m = match prev with Some r => first_call_date r | None => created end /\
    last_call_date m = t1 /\
    call_count m = match prev with Some r => call_count r | None => 0 end + 1 /\
    facts m = filter_expired_facts t2
                (merge_facts (match prev with Some r => facts r | None => [] end) nf)
                TTL_DAYS.
Proof.
  intros Ht Hg Hs.
  destruct (new_facts_of_ok llm_extract history llm) as [nf Hnf].
  destruct (svc_enabled svc) eqn:Een; [|unfold save in Hs; rewrite Een in Hs; discriminate].
  rewrite save_unfold in Hs by assumption.
  unfold try_except, save_body in Hs. rewrite Hg, Hnf in Hs.
  cbn [bind local_save local_save_with] in Hs.
  injection Hs as <-.
  exists nf. eexists. split; [exact Hnf|].
  rewrite load_unfold by assumption.
  unfold try_except, load_body, bind, local_get. cbn [svc_store].
  rewrite file_lookup_write.
  split; [reflexivity|].
  destruct prev as [r|]; cbn; repeat split.
Qed.


(* ------------------------------------------------------------------ *)
(** ** Concrete instances of the further properties *)

Lemma clean_response_text_json_fence_witness :
  strip (NL ++ "[1, 2]" ++ NL)%string = "[1, 2]" /\
  clean_response_text ("```json" ++ (NL ++ "[1, 2]" ++ NL) ++ "```")%string = "[1, 2]".
Proof.
  assert (Hs : strip (NL ++ "[1, 2]" ++ NL)%string = String "["%char "1, 2]")
    by (vm_compute; reflexivity).
  split; [exact Hs|].
  exact (clean_response_text_json_fence _ "1, 2]" "["%char Hs (or_intror eq_refl)).
Defined.


Lemma filter_validated_facts_sound_witness :
  0 <= 50 /\
  In (mkFact "user_name" "Sam (the caller)" 9 0 (Some "llm"))
     (filter_validated_facts 5 50 0 ef_sample) /\
  exists ef, In ef ef_sample /\
    mkFact "user_name" "Sam (the caller)" 9 0 (Some "llm") =
      mkFact (ef_key ef) (ef_value ef) (ef_importance ef) 0 (Some "llm") /\
    5 <= ef_importance ef /\ has_sufficient_context ef = true.
Proof.
  assert (H : 0 <= 50) by lia.
  assert (Hin : In (mkFact "user_name" "Sam (the caller)" 9 0 (Some "llm"))
                   (filter_validated_facts 5 50 0 ef_sample))
    by (vm_compute; left; reflexivity).
  split; [exact H|]. split; [exact Hin|].
  exact (proj2 (filter_validated_facts_sound 5 50 0 ef_sample H) _ Hin).
Defined.

Lemma extract_retry_prompt_sequence_witness :
  1 <= 3 /\ has_user_content hist_hi = true /\
  extract garbage_generate json_fails 3 hist_hi =
    (mkExtractionResult [] None false (Some (error_text json_error)),
     let t := escape_braces (format_conversation hist_hi) in
     if 3 =? 1 then [StrictRetryPrompt t]
     else ExtractionPrompt t :: repeat (RetryPrompt (error_text json_error) t)
                                  (Z.to_nat 3 - 2) ++ [StrictRetryPrompt t]).
Proof.
  assert (H1 : 1 <= 3) by lia.
  assert (H2 : has_user_content hist_hi = true) by reflexivity.
  assert (H3 : forall p, exists text, garbage_generate p = Some text /\ truthy text = true)
    by (intros p; eexists; split; reflexivity).
  assert (H4 : forall text, json_fails text = Err json_error) by reflexivity.
  split; [exact H1|]. split; [exact H2|].
  exact (extract_retry_prompt_sequence garbage_generate json_fails 3 json_error hist_hi
           H1 H2 H3 H4).
Defined.

Lemma extract_prompts_double_braces_witness :
  In (ExtractionPrompt "USER: My door code is {{1234}}")
     (snd (extract garbage_generate json_fails 2 hist_brace)) /\
  escape_braces (format_conversation hist_brace) = "USER: My door code is {{1234}}" /\
  String.length (escape_braces (format_conversation hist_brace)) =
    (String.length (format_conversation hist_brace) + 2)%nat.
Proof.
  assert (Hin : In (ExtractionPrompt "USER: My door code is {{1234}}")
                   (snd (extract garbage_generate json_fails 2 hist_brace)))
    by (vm_compute; left; reflexivity).
  destruct (extract_prompts_double_braces garbage_generate json_fails 2 hist_brace)
    as [Hp Hl].
  split; [exact Hin|]. split.
  - symmetry. exact (Hp _ Hin).
  - rewrite Hl. reflexivity.
Defined.

Lemma merge_facts_keeps_most_important_witness :
  In (fct "k" "new" 1) (fact_map c1_existing c1_new) /\
  not (In (fct "k" "new" 1) (merge_facts c1_existing c1_new)) /\
  In (fct "a" "detail" 10) (merge_facts c1_existing c1_new) /\
  importance (fct "k" "new" 1) <= importance (fct "a" "detail" 10).
Proof.
  assert (H1 : In (fct "k" "new" 1) (fact_map c1_existing c1_new))
    by (vm_compute; left; reflexivity).
  assert (H2 : not (In (fct "k" "new" 1) (merge_facts c1_existing c1_new))).
  { intros H. vm_compute in H.
    repeat match type of H with
           | _ \/ _ => destruct H as [H|H]; [discriminate H|]
           end.
    exact H. }
  assert (H3 : In (fct "a" "detail" 10) (merge_facts c1_existing c1_new))
    by (vm_compute; left; reflexivity).
  split; [exact H1|]. split; [exact H2|]. split; [exact H3|].
  exact (proj2 (proj2 (proj2 (merge_facts_keeps_most_important c1_existing c1_new)))
           _ _ H1 H2 H3).
Defined.

Lemma enhance_instructions_unchanged_iff_witness :
  enhance_instructions (fun _ => "") "MEMORY" "Be brief." (Some r_nofacts) = "Be brief.".
Proof.
  exact (proj2 (enhance_instructions_unchanged_iff (fun _ => "") "MEMORY" "Be brief."
                  (Some r_nofacts)) (or_intror eq_refl)).
Defined.

Lemma load_miss_keeps_loaded_memory_witness :
  load (local_get CALL_MEMORY) (local_service fs_old) None 0 = Ok (Some r_old, loaded_service) /\
  load (local_get CALL_MEMORY) loaded_service (Some phone2) 0 = Ok (None, loaded_service) /\
  svc_loaded_memory loaded_service = Some r_old /\
  svc_format_memory_for_prompt (fun _ => "") loaded_service None =
    full_context (format (fun _ => "") (Some r_old)).
Proof.
  assert (H1 : load (local_get CALL_MEMORY) (local_service fs_old) None 0
               = Ok (Some r_old, loaded_service)) by (vm_compute; reflexivity).
  assert (H2 : load (local_get CALL_MEMORY) loaded_service (Some phone2) 0
               = Ok (None, loaded_service)) by (vm_compute; reflexivity).
  split; [exact H1|]. split; [exact H2|].
  exact (proj2 (load_miss_keeps_loaded_memory (local_get CALL_MEMORY) (fun _ => "")
                  _ _ _ None (Some phone2) 0 0 r_old H1 H2)).
Defined.

Lemma local_store_delete_exists_witness :
  get_file_path CALL_MEMORY phone2 <> get_file_path CALL_MEMORY phone1 /\
  local_get CALL_MEMORY (snd (local_delete CALL_MEMORY fs_old phone1)) phone2 =
    local_get CALL_MEMORY fs_old phone2 /\
  local_exists CALL_MEMORY (snd (local_delete CALL_MEMORY fs_old phone1)) phone1 = false /\
  fst (local_delete CALL_MEMORY fs_old phone1) = true.
Proof.
  assert (Hne : get_file_path CALL_MEMORY phone2 <> get_file_path CALL_MEMORY phone1).
  { intros H. vm_compute in H. discriminate H. }
  destruct (local_store_delete_exists CALL_MEMORY fs_old phone1 phone2 r_old)
    as [_ [_ [H3 [H4 [_ [H6 _]]]]]].
  split; [exact Hne|]. split; [exact (H6 Hne)|]. split; [exact H4|].
  rewrite H3. reflexivity.
Defined.


Lemma local_save_then_load_witness :
  save_local (local_service fs_old) (Some phone1) hist_hi (Some tt) now99 now100
    = Ok (true, saved_service) /\
  exists nf m,
    new_facts_of raising_llm hist_hi (Some tt) = Ok nf /\
    load (local_get CALL_MEMORY) saved_service (Some phone1) now100 =
      Ok (Some m, mkMemoryService (svc_enabled saved_service)
                    (svc_phone_number saved_service) (Some m) (svc_store saved_service)) /\
    phone_number m = phone1 /\
    first_call_date m = 0 /\
    last_call_date m = now100 /\
    call_count m = 2 /\
    facts m = filter_expired_facts now100 (merge_facts [old_fact] nf) TTL_DAYS.
Proof.
  assert (Hs : save_local (local_service fs_old) (Some phone1) hist_hi (Some tt) now99 now100
               = Ok (true, saved_service)) by (vm_compute; reflexivity).
  split; [exact Hs|].
  exact (local_save_then_load raising_llm CALL_MEMORY (local_service fs_old) saved_service
           phone1 hist_hi (Some tt) now99 now100 now100 (Some r_old) eq_refl eq_refl Hs).
Defined.
